(** * r4n: the eurocore cog (cogs/eurocore.py) and its error handler

    A shallow embedding of the job tracker of [cogs/eurocore.py]: the [Job]
    record and its [update], the polling task [poll_jobs], the session
    lookup [get_user], the submission path [dispatch] and the slash
    commands [add_dispatch], [edit_dispatch] and [delete_dispatch].

    Python objects mutated in place are threaded as explicit state; every
    call that leaves the process (HTTP to the eurocore API, Discord) is
    answered by an environment [Env] and recorded in a trace of events;
    exceptions are an outcome of a run, next to normal return. *)

From stdpp Require Import gmap strings list.
From Stdlib Require Import ZArith Lia Ascii String.

Local Open Scope string_scope.
Local Open Scope Z_scope.
Local Open Scope list_scope.

(** ** Values *)

(** A [datetime]: an instant, in microseconds since the epoch. *)
Definition datetime := Z.

(** [timedelta(hours=12)], in microseconds. *)
Definition twelve_hours : Z := 12 * 3600 * 1000000.

(** A [discord.Message], known by its handle only. *)
Definition Message := Z.

(** What [datetime.strptime(s, "%Y-%m-%dT%H:%M:%S.%fZ").replace(tzinfo=utc)]
    makes of a timestamp string of a response: a [ValueError], or an
    instant. *)
Inductive wire_time :=
| Unparseable
| Instant (t : datetime).

(** The exceptions the modelled code can leave a call with. *)
Inductive exn :=
| KeyError (key : string)
| KeyErrorId (key : Z)
| ValueError
| AttributeError
| UnicodeDecodeError
| UserInputError (msg : string)
| AuthenticationError
| InteractionResponded
| ClientError
| HTTPException.

(** ** Users (components/user.py) *)

Module User.

(** Modelled from the spec: the [User] class of components/user.py is not
    among the sources.  Section 3 gives a session an identity, a display
    name, credential material, a bearer token and an [issuedAt]
    timestamp; the cog reads [id], [name], [token] and [last_login]. *)
Record t := mk {
  id : Z;
  name : string;
  password : string;
  token : string;
  last_login : datetime
}.

(** Modelled from the spec: [User(id, username, password)] holds the
    credential material; token and [last_login] are set by the first
    sign-in. *)
Definition new (user_id : Z) (username pass : string) : t :=
  mk user_id username pass "" 0.

Definition signed_in (tok : string) (now : datetime) (u : t) : t :=
  mk (id u) (name u) (password u) tok now.

End User.

(** ** Embeds

    A [discord.Embed] is kept as the values interpolated into it, not as
    the formatted strings. *)

Inductive field_value :=
| FInt (z : Z)                      (* an integer, as is *)
| FStr (s : string)                 (* a string, as is *)
| FTimestamp (t : datetime)         (* <t:{int(t.timestamp())}> *)
| FRelative (t : datetime)          (* <t:{int(t.timestamp())}:R> *)
| FDispatchLink (dispatch_id : Z)   (* https://www.nationstates.net/page=dispatch/id={dispatch_id} *)
| FCode (e : option string).        (* ```{error}``` *)

Record Embed := mkEmbed {
  embed_title : Z * string;         (* Job {id}: {status.title()} *)
  embed_fields : list (string * field_value * bool);
  embed_footer : string             (* Initiated by {user.name} *)
}.

(** ** Jobs *)

Module Job.

Record t := mk {
  id : Z;
  user : User.t;
  action : string;
  created_at : datetime;
  modified_at : datetime;
  status : string;
  dispatch_id : option Z;
  error : option string;
  ping_on_completion : bool;
  message : option Message
}.

(** [Job.__init__]: the message starts as [None]. *)
Definition init (user : User.t) (job_id : Z) (action : string)
    (created_at modified_at : datetime) (status : string)
    (ping_on_completion : bool) (dispatch_id : option Z)
    (error : option string) : t :=
  mk job_id user action created_at modified_at status dispatch_id error
     ping_on_completion None.

(** Attribute assignments [self.x = v]. *)
Definition set_status (v : string) (j : t) : t :=
  mk (id j) (user j) (action j) (created_at j) (modified_at j) v
     (dispatch_id j) (error j) (ping_on_completion j) (message j).

Definition set_modified_at (v : datetime) (j : t) : t :=
  mk (id j) (user j) (action j) (created_at j) v (status j)
     (dispatch_id j) (error j) (ping_on_completion j) (message j).

Definition set_dispatch_id (v : option Z) (j : t) : t :=
  mk (id j) (user j) (action j) (created_at j) (modified_at j) (status j)
     v (error j) (ping_on_completion j) (message j).

Definition set_error (v : option string) (j : t) : t :=
  mk (id j) (user j) (action j) (created_at j) (modified_at j) (status j)
     (dispatch_id j) v (ping_on_completion j) (message j).

(** [Job.set_message]. *)
Definition set_message (m : Message) (j : t) : t :=
  mk (id j) (user j) (action j) (created_at j) (modified_at j) (status j)
     (dispatch_id j) (error j) (ping_on_completion j) (Some m).

(** Truth value of [self.dispatch_id]: [None] and [0] are false. *)
Definition dispatch_id_truthy (j : t) : option Z :=
  match dispatch_id j with
  | Some d => if d =? 0 then None else Some d
  | None => None
  end.

(** [Job.embed]. *)
Definition embed (j : t) : Embed :=
  mkEmbed (id j, status j)
    ([ ("Job ID", FInt (id j), true);
       ("Action", FStr (action j), true);
       ("Status", FStr (status j), true);
       ("", FStr "", false);
       ("Job Created", FTimestamp (created_at j), true);
       ("Job Modified", FRelative (modified_at j), true) ]
     ++ match dispatch_id_truthy j with
        | Some d =>
            if String.eqb (action j) "remove" then []
            else [ ("View Dispatch", FDispatchLink d, false) ]
        | None => []
        end
     ++ [ ("Error", FCode (error j), false) ])
    (User.name (user j)).

End Job.

(** ** The wire *)

(** The JSON object of a job descriptor, as [response.json()] returns it.
    A field is [None] when the key is absent; [dispatch_id] and [error]
    may be JSON [null]. *)
Record ResponseData := mkResponseData {
  rd_id : option Z;
  rd_action : option string;
  rd_created_at : option wire_time;
  rd_modified_at : option wire_time;
  rd_status : option string;
  rd_dispatch_id : option (option Z);
  rd_error : option (option string)
}.

(** What a request to the eurocore API comes back with: the request or
    [response.json()] raises, or a JSON object is decoded. *)
Inductive Response :=
| ResponseError (e : exn)
| ResponseJson (data : ResponseData).

(** The [data] dictionary of a submission ([nation] only for an add). *)
Record Payload := mkPayload {
  p_title : string;
  p_nation : option string;
  p_category : Z;
  p_subcategory : Z;
  p_text : string
}.

(** ** Events: what leaves the process *)

Inductive reply_text :=
| LoginSuccessful (name : string)   (* login successful, welcome back, {name}! *)
| LoginFailed (e : exn)             (* login failed: {error}, please try again *)
| ErrorOccurred (e : exn).          (* An error occurred: {error} *)

Inductive discord_call :=
| message_edit (m : Message) (e : Embed)
| message_reply (m : Message) (mention : Z)      (* <@!{user.id}> *)
| send_modal
| send_message_embed (e : Embed)
| send_message_text (t : reply_text)
| followup_send (e : Embed)
| original_response
| attachment_read.

Inductive log_line :=
| PollingJobs
| LoggedInUser (name : string)
| LoginError (e : exn)
| PollingJobsError (e : exn).

Inductive event :=
| EvGet (job_id : Z)                (* GET {eurocore_url}/queue/dispatch/{job_id} *)
| EvRequest (method : string) (dispatch_id : option Z) (bearer : string)
            (json : option Payload) (* {method} {eurocore_url}/dispatch[/{dispatch_id}] *)
| EvSignIn (username : string)
| EvDiscord (c : discord_call)
| EvLog (l : log_line).

(** ** The environment

    The answers of the outside world during one run. *)
Record Env := mkEnv {
  (* the eurocore API *)
  queue_dispatch : Z -> Response;
  dispatch_endpoint : string -> option Z -> string -> option Payload -> Response;
  authenticate : string -> string -> option string;
  (* Discord: [Some e] when the call raises *)
  discord : discord_call -> option exn;
  sent_message : Message;
  (* the login modal: [username.value.strip()] and
     [password.value.strip()] of what the user submits, if anything *)
  modal_submission : option (string * string);
  (* the clock *)
  now : datetime
}.

(** ** Runs

    A computation over a state [S]: it returns, raises, or stays
    suspended for ever; either way it leaves a state and a trace. *)
Inductive outcome (A : Type) :=
| Ok (a : A)
| Raise (e : exn)
| Pending.
Arguments Ok {A} a.
Arguments Raise {A} e.
Arguments Pending {A}.

Record run (S A : Type) := Run {
  result : outcome A;
  final : S;
  trace : list event
}.
Arguments Run {S A} result final trace.
Arguments result {S A} r.
Arguments final {S A} r.
Arguments trace {S A} r.

Definition M (S A : Type) : Type := S -> run S A.

Definition ret {S A} (a : A) : M S A := fun s => Run (Ok a) s [].

(** A run after the events [tr]. *)
Definition after {S A} (tr : list event) (r : run S A) : run S A :=
  match r with
  | Run res s tr' => Run res s (tr ++ tr')
  end.

Definition bind {S A B} (m : M S A) (k : A -> M S B) : M S B :=
  fun s =>
    match m s with
    | Run (Ok a) s' tr => after tr (k a s')
    | Run (Raise e) s' tr => Run (Raise e) s' tr
    | Run Pending s' tr => Run Pending s' tr
    end.

Definition raise {S A} (e : exn) : M S A := fun s => Run (Raise e) s [].
Definition suspend {S A} : M S A := fun s => Run Pending s [].
Definition get {S} : M S S := fun s => Run (Ok s) s [].
Definition modify {S} (f : S -> S) : M S unit := fun s => Run (Ok tt) (f s) [].
Definition emit {S} (ev : event) : M S unit := fun s => Run (Ok tt) s [ev].

Notation "x <- c ;; k" := (bind c (fun x => k))
  (at level 100, c at next level, right associativity).
Notation "c ;; k" := (bind c (fun _ => k))
  (at level 100, right associativity).

(** [d[key]]: [KeyError] when the key is absent. *)
Definition getitem {S A} (key : string) (field : option A) : M S A :=
  match field with
  | Some v => ret v
  | None => raise (KeyError key)
  end.

(** [datetime.strptime(...)]: [ValueError] on a string of another shape. *)
Definition strptime {S} (w : wire_time) : M S datetime :=
  match w with
  | Instant t => ret t
  | Unparseable => raise ValueError
  end.

(** A request to the queue endpoint, as [bot.client.get] followed by
    [response.json()]. *)
Definition client_get {S} (env : Env) (job_id : Z) : M S ResponseData :=
  emit (EvGet job_id) ;;
  match queue_dispatch env job_id with
  | ResponseError e => raise e
  | ResponseJson data => ret data
  end.

(** A call to Discord. *)
Definition call_discord {S} (env : Env) (c : discord_call) : M S unit :=
  emit (EvDiscord c) ;;
  match discord env c with
  | Some e => raise e
  | None => ret tt
  end.

(** An attribute of [self.message]; [None] has none. *)
Definition message_of {S} (j : Job.t) : M S Message :=
  match Job.message j with
  | Some m => ret m
  | None => raise AttributeError
  end.

(** ** [Job.update]

    The state is [self]. *)
Definition update (env : Env) : M Job.t unit :=
  self <- get ;;
  response_data <- client_get env (Job.id self) ;;
  v <- getitem "status" (rd_status response_data) ;;
  modify (Job.set_status v) ;;
  w <- getitem "modified_at" (rd_modified_at response_data) ;;
  t <- strptime w ;;
  modify (Job.set_modified_at t) ;;
  v <- getitem "dispatch_id" (rd_dispatch_id response_data) ;;
  modify (Job.set_dispatch_id v) ;;
  v <- getitem "error" (rd_error response_data) ;;
  modify (Job.set_error v) ;;
  self <- get ;;
  m <- message_of self ;;
  call_discord env (message_edit m (Job.embed self)).

(** ** The cog

    [self.jobs] is a dictionary in insertion order: a list of items with
    distinct keys.  [user_list] is the bot's.  [response_is_done] is
    [interaction.response.is_done()] of the interaction being served. *)
Record Eurocore := mkEurocore {
  jobs : list (Z * Job.t);
  user_list : gmap Z User.t;
  response_is_done : bool
}.

Definition with_jobs (js : list (Z * Job.t)) (s : Eurocore) : Eurocore :=
  mkEurocore js (user_list s) (response_is_done s).

Definition with_user_list (us : gmap Z User.t) (s : Eurocore) : Eurocore :=
  mkEurocore (jobs s) us (response_is_done s).

Definition with_response_is_done (b : bool) (s : Eurocore) : Eurocore :=
  mkEurocore (jobs s) (user_list s) b.

(** [Eurocore.__init__]. *)
Definition init_cog (users : gmap Z User.t) : Eurocore :=
  mkEurocore [] users false.

(** [d[k] = v] on a dictionary in insertion order: a present key keeps its
    place, a new one goes last. *)
Fixpoint dict_set {V} (k : Z) (v : V) (d : list (Z * V)) : list (Z * V) :=
  match d with
  | [] => [(k, v)]
  | (k', v') :: d' =>
      if decide (k' = k) then (k, v) :: d' else (k', v') :: dict_set k v d'
  end.

(** A computation on [self.jobs] as one on the cog. *)
Definition on_jobs {A} (m : M (list (Z * Job.t)) A) : M Eurocore A :=
  fun s =>
    let r := m (jobs s) in
    Run (result r) (with_jobs (final r) s) (trace r).

(** [for message_id, job in self.jobs.items(): body]: the body runs on
    each job object in turn, in place; when it does not return, the loop
    is left there. *)
Fixpoint for_items (body : Z -> M Job.t unit) (items : list (Z * Job.t))
    : run (list (Z * Job.t)) unit :=
  match items with
  | [] => Run (Ok tt) [] []
  | (message_id, job) :: rest =>
      let r := body message_id job in
      match result r with
      | Ok _ =>
          let r' := for_items body rest in
          Run (result r') ((message_id, final r) :: final r')
              (trace r ++ trace r')
      | Raise e => Run (Raise e) ((message_id, final r) :: rest) (trace r)
      | Pending => Run Pending ((message_id, final r) :: rest) (trace r)
      end
  end.

(** ** [Eurocore.poll_jobs] *)

(** The body of the loop. *)
Definition poll_job (env : Env) (message_id : Z) : M Job.t unit :=
  update env ;;
  job <- get ;;
  if decide (Job.status job = "queued") then ret tt
  else if Job.ping_on_completion job then
    m <- message_of job ;;
    call_discord env (message_reply m (User.id (Job.user job)))
  else ret tt.

Definition is_queued (item : Z * Job.t) : Prop := Job.status item.2 = "queued".

#[global] Instance is_queued_dec item : Decision (is_queued item).
Proof. unfold is_queued. apply _. Defined.

Definition poll_jobs (env : Env) : M Eurocore unit :=
  emit (EvLog PollingJobs) ;;
  on_jobs (for_items (poll_job env)) ;;
  modify (fun s => with_jobs (filter is_queued (jobs s)) s).

(** [on_poll_jobs_error], the handler registered with [@poll_jobs.error]. *)
Definition on_poll_jobs_error (error : exn) : M Eurocore unit :=
  emit (EvLog (PollingJobsError error)).

(** ** Sessions *)

(** Modelled from the spec: [Bot.sign_in] of components/bot.py is not
    among the sources.  Section 4.1: authenticates against the remote API
    with the stored credential material; on success the token is replaced
    and the session is as of now; on rejection it fails with
    [AuthenticationError] and the prior token is untouched. *)
Definition sign_in {S} (env : Env) (user : User.t) : M S User.t :=
  emit (EvSignIn (User.name user)) ;;
  match authenticate env (User.name user) (User.password user) with
  | Some tok => ret (User.signed_in tok (now env) user)
  | None => raise AuthenticationError
  end.

(** Modelled from the spec: [user_list.add_user] of components/bot.py is
    not among the sources; one session per identity. *)
Definition add_user (user_id : Z) (user : User.t) : M Eurocore unit :=
  modify (fun s => with_user_list (<[user_id := user]> (user_list s)) s).

(** [interaction.response.send_modal] and [.send_message]: the one
    response of an interaction. *)
Definition respond (env : Env) (c : discord_call) : M Eurocore unit :=
  s <- get ;;
  if response_is_done s then raise InteractionResponded
  else
    call_discord env c ;;
    modify (with_response_is_done true).

(** [LoginModal.on_submit], for the interaction of the user [user_id];
    its reply goes to the interaction of the modal. *)
Definition LoginModal_on_submit (env : Env) (user_id : Z)
    (username password : string) : M Eurocore unit :=
  let user := User.new user_id username password in
  user <- sign_in env user ;;
  add_user user_id user ;;
  emit (EvLog (LoggedInUser (User.name user))) ;;
  call_discord env (send_message_text (LoginSuccessful (User.name user))).

(** [LoginModal.on_error]. *)
Definition LoginModal_on_error (env : Env) (error : exn) : M Eurocore unit :=
  emit (EvLog (LoginError error)) ;;
  call_discord env (send_message_text (LoginFailed error)).

(** [await modal.wait()] on the login modal: it returns once a submission
    has been handled by [on_submit].  When [on_submit] raises, [on_error]
    runs and the modal stays open; the modal has no timeout, and a modal
    nobody submits stays open as well. *)
Definition modal_wait (env : Env) (user_id : Z) : M Eurocore unit :=
  match modal_submission env with
  | None => suspend
  | Some (username, password) =>
      fun s =>
        let r := LoginModal_on_submit env user_id username password s in
        match result r with
        | Raise e =>
            let r' := LoginModal_on_error env e (final r) in
            Run Pending (final r') (trace r ++ trace r')
        | _ => r
        end
  end.

(** ** [Eurocore.get_user]

    [sign_in] changes the user object of [user_list] in place: the entry
    is replaced by the signed-in user. *)
Definition get_user (env : Env) (interaction_user : Z) : M Eurocore User.t :=
  s <- get ;;
  match user_list s !! interaction_user with
  | None =>
      respond env send_modal ;;
      modal_wait env interaction_user
  | Some _ => ret tt
  end ;;
  s <- get ;;
  match user_list s !! interaction_user with
  | None => raise (KeyErrorId interaction_user)
  | Some user =>
      if decide (now env - User.last_login user > twelve_hours) then
        user <- sign_in env user ;;
        add_user interaction_user user ;;
        ret user
      else ret user
  end.

(** ** [Eurocore.dispatch] *)

(** [f'/{dispatch_id}' if dispatch_id else ''] *)
Definition path_of (dispatch_id : option Z) : option Z :=
  match dispatch_id with
  | Some d => if d =? 0 then None else Some d
  | None => None
  end.

Definition client_request {S} (env : Env) (method : string)
    (dispatch_id : option Z) (bearer : string) (json : option Payload)
    : M S ResponseData :=
  emit (EvRequest method (path_of dispatch_id) bearer json) ;;
  match dispatch_endpoint env method (path_of dispatch_id) bearer json with
  | ResponseError e => raise e
  | ResponseJson data => ret data
  end.

Definition dispatch (env : Env) (interaction_user : Z) (method : string)
    (data : option Payload) (dispatch_id : option Z) (ping : bool)
    : M Eurocore unit :=
  user <- get_user env interaction_user ;;
  response_data <- client_request env method dispatch_id (User.token user) data ;;
  job_id <- getitem "id" (rd_id response_data) ;;
  action <- getitem "action" (rd_action response_data) ;;
  w <- getitem "created_at" (rd_created_at response_data) ;;
  created_at <- strptime w ;;
  w <- getitem "modified_at" (rd_modified_at response_data) ;;
  modified_at <- strptime w ;;
  status <- getitem "status" (rd_status response_data) ;;
  dispatch_id' <- getitem "dispatch_id" (rd_dispatch_id response_data) ;;
  error <- getitem "error" (rd_error response_data) ;;
  let job := Job.init user job_id action created_at modified_at status ping
                      dispatch_id' error in
  s <- get ;;
  message <-
    (if response_is_done s then
       call_discord env (followup_send (Job.embed job)) ;;
       ret (sent_message env)
     else
       respond env (send_message_embed (Job.embed job)) ;;
       call_discord env original_response ;;
       ret (sent_message env)) ;;
  let job := Job.set_message message job in
  modify (fun s => with_jobs (dict_set (Job.id job) job (jobs s)) s).

(** ** [str] and [int] *)

Definition digit_char (d : Z) : ascii := ascii_of_nat (48 + Z.to_nat d).

(** The decimal digits of [n >= 0] in front of [acc], last digit first
    computed; [fuel] bounds the number of digits. *)
Fixpoint digits (fuel : nat) (n : Z) (acc : string) : string :=
  match fuel with
  | O => acc
  | S fuel' =>
      let acc' := String (digit_char (n mod 10)) acc in
      if n <? 10 then acc' else digits fuel' (n / 10) acc'
  end.

(** [str(n)] of an [int]: a number has no more decimal digits than
    binary ones. *)
Definition str (n : Z) : string :=
  if n <? 0 then String "-" (digits (S (Z.to_nat (Z.log2 (- n)))) (- n) "")
  else digits (S (Z.to_nat (Z.log2 n))) n "".

(** [s[:1]] *)
Definition slice_to_1 (s : string) : string :=
  match s with
  | EmptyString => ""
  | String c _ => String c ""
  end.

Definition digit_value (c : ascii) : option Z :=
  let n := Z.of_nat (nat_of_ascii c) in
  if (48 <=? n) && (n <=? 57) then Some (n - 48) else None.

Fixpoint int_digits (s : string) (acc : Z) : option Z :=
  match s with
  | EmptyString => Some acc
  | String c s' =>
      match digit_value c with
      | Some d => int_digits s' (10 * acc + d)
      | None => None
      end
  end.

(** [int(s)] of a string of ASCII digits with an optional sign;
    [ValueError] otherwise (empty, a lone sign, another character). *)
Definition int {S} (s : string) : M S Z :=
  let unsigned (s : string) : option Z :=
    match s with
    | EmptyString => None
    | _ => int_digits s 0
    end in
  let parsed :=
    match s with
    | String "-" s' => Z.opp <$> unsigned s'
    | String "+" s' => unsigned s'
    | _ => unsigned s
    end in
  match parsed with
  | Some z => ret z
  | None => raise ValueError
  end.

(** ** The slash commands *)

(** A [discord.Attachment]: its content type, and its bytes decoded as
    UTF-8 ([None] when they are not UTF-8). *)
Record Attachment := mkAttachment {
  content_type : option string;
  decoded : option string
}.

(** The values of the choices of [category]. *)
Definition category_choices : list Z := [305; 315; 325; 385; 835; 845].

(** [(await content.read()).decode("UTF-8")] *)
Definition read_text (env : Env) (content : Attachment) : M Eurocore string :=
  call_discord env attachment_read ;;
  match decoded content with
  | Some text => ret text
  | None => raise UnicodeDecodeError
  end.

Definition add_dispatch (env : Env) (interaction_user : Z) (title : string)
    (nation : string) (category : Z) (content : Attachment) (ping : bool)
    : M Eurocore unit :=
  if decide (content_type content = Some "text/plain; charset=utf-8") then
    text <- read_text env content ;;
    c <- int (slice_to_1 (str category)) ;;
    let data := mkPayload title (Some nation) c category text in
    dispatch env interaction_user "POST" (Some data) None ping
  else raise (UserInputError "content must be a .txt file").

Definition edit_dispatch (env : Env) (interaction_user : Z) (dispatch_id : Z)
    (title : string) (category : Z) (content : Attachment) (ping : bool)
    : M Eurocore unit :=
  if decide (content_type content = Some "text/plain; charset=utf-8") then
    text <- read_text env content ;;
    c <- int (slice_to_1 (str category)) ;;
    let data := mkPayload title None c category text in
    dispatch env interaction_user "PUT" (Some data) (Some dispatch_id) ping
  else raise (UserInputError "content must be a .txt file").

Definition delete_dispatch (env : Env) (interaction_user : Z)
    (dispatch_id : Z) (ping : bool) : M Eurocore unit :=
  dispatch env interaction_user "DELETE" None (Some dispatch_id) ping.

(** ** [ErrorHandler.on_error] (cogs/error_handler.py), installed as
    [bot.tree.on_error]. *)
Definition on_error (env : Env) (error : exn) : M Eurocore unit :=
  respond env (send_message_text (ErrorOccurred error)).

(** An application command under the command tree: an exception that
    leaves the command is handed to [on_error]. *)
Definition app_command (env : Env) (command : M Eurocore unit)
    : M Eurocore unit :=
  fun s =>
    let r := command s in
    match result r with
    | Raise e =>
        let r' := on_error env e (final r) in
        Run (result r') (final r') (trace r ++ trace r')
    | _ => r
    end.

(** ** Vocabulary of the properties *)

(** The keys of a dictionary, in order. *)
Definition keys {V} (d : list (Z * V)) : list Z := d.*1.

(** The terminal statuses. *)
Definition terminal (st : string) : Prop := st = "success" \/ st = "failure".

(** A job whose four descriptor fields have been overwritten. *)
Definition updated (st : string) (t : datetime) (d : option Z)
    (e : option string) (job : Job.t) : Job.t :=
  Job.mk (Job.id job) (Job.user job) (Job.action job) (Job.created_at job)
         t st d e (Job.ping_on_completion job) (Job.message job).

(** The descriptor a response carries, when it carries all of one. *)
Definition descriptor (data : ResponseData)
    : option (string * datetime * option Z * option string) :=
  match rd_status data, rd_modified_at data, rd_dispatch_id data, rd_error data with
  | Some st, Some (Instant t), Some d, Some e => Some (st, t, d, e)
  | _, _, _, _ => None
  end.

(** The job objects after one call of [Job.update] each, one environment
    per call. *)
Definition update_all (envs : list Env) (job : Job.t) : Job.t :=
  fold_left (fun j env => final (update env j)) envs job.

(** An item after the body of the polling loop has run on it. *)
Definition polled (env : Env) (item : Z * Job.t) : Z * Job.t :=
  (item.1, final (poll_job env item.1 item.2)).

(** What a sweep sends for one job: the request, the render, and the ping
    of a job that is no longer queued and asked for one. *)
Definition sweep_segment (env : Env) (item : Z * Job.t) (seg : list event)
    : Prop :=
  let job' := final (update env item.2) in
  exists m,
    Job.message item.2 = Some m /\
    seg = [EvGet (Job.id item.2); EvDiscord (message_edit m (Job.embed job'))]
          ++ (if decide (Job.status job' = "queued") then []
              else if Job.ping_on_completion item.2
                   then [EvDiscord (message_reply m (User.id (Job.user item.2)))]
                   else []).

(** The request events of a trace carry the payload [data]. *)
Definition request_carries (category subcategory : Z) (ev : event) : Prop :=
  match ev with
  | EvRequest _ _ _ json =>
      exists data, json = Some data /\
        p_category data = category /\ p_subcategory data = subcategory
  | _ => True
  end.

(** A computation that leaves [self.jobs] alone. *)
Definition keeps_jobs {A} (m : M Eurocore A) : Prop :=
  forall s, jobs (final (m s)) = jobs s.

(** A computation all of whose events satisfy [P]. *)
Definition emits {S A} (P : event -> Prop) (m : M S A) : Prop :=
  forall s, Forall P (trace (m s)).

(** *** The sentences of the specification that the code does not meet,
    as they are written *)

(** An erroring job is skipped alone: it is left as it was and tracked,
    and every other job of the sweep is updated, and removed when it is no
    longer queued. *)
Definition sweep_isolates_failures : Prop :=
  forall env s k job e,
    NoDup (keys (jobs s)) ->
    (k, job) ∈ jobs s ->
    queue_dispatch env (Job.id job) = ResponseError e ->
    (forall c, discord env c = None) ->
    (k, job) ∈ jobs (final (poll_jobs env s)) /\
    forall k' job' data st t d e',
      (k', job') ∈ jobs s -> k' <> k ->
      queue_dispatch env (Job.id job') = ResponseJson data ->
      descriptor data = Some (st, t, d, e') ->
      if decide (st = "queued")
      then (k', updated st t d e' job') ∈ jobs (final (poll_jobs env s))
      else k' ∉ keys (jobs (final (poll_jobs env s))).

(** A terminal status is never left, whatever updates follow. *)
Definition status_never_leaves_terminal : Prop :=
  forall envs envs' job,
    terminal (Job.status (update_all envs job)) ->
    Job.status (update_all (envs ++ envs') job)
    = Job.status (update_all envs job).

(** A job that a submission adds to the active set is queued. *)
Definition tracked_in_queued_status : Prop :=
  forall env interaction_user method data dispatch_id ping s item,
    result (dispatch env interaction_user method data dispatch_id ping s) = Ok tt ->
    item ∈ jobs (final (dispatch env interaction_user method data dispatch_id ping s)) ->
    item ∉ jobs s ->
    Job.status item.2 = "queued".

(** [modified_at] does not decrease from one update to the next. *)
Definition modified_at_non_decreasing : Prop :=
  forall env env' job,
    Job.modified_at (final (update env job))
    <= Job.modified_at (final (update env' (final (update env job)))).

(** ** Sample worlds

    The scenarios of section 8 of the specification: a job 7 that asked
    for a ping, a job 3 that did not, and what the remote API answers. *)

Definition ann : User.t := User.mk 10 "ann" "hunter22" "t0" 0.

Definition job_3 : Job.t :=
  Job.set_message 103 (Job.init ann 3 "add" 5 5 "queued" false None None).

Definition job_7 : Job.t :=
  Job.set_message 107
    (Job.init ann 7 "edit" 6 6 "queued" true (Some 9001) None).

Definition two_jobs : Eurocore := mkEurocore [(3, job_3); (7, job_7)] ∅ false.

(** A descriptor of the job 7 with status [st], modified at [t]. *)
Definition reports (st : string) (t : datetime) (e : option string)
    : ResponseData :=
  mkResponseData (Some 7) (Some "edit") (Some (Instant 6)) (Some (Instant t))
                 (Some st) (Some (Some 9001)) (Some e).

(** An environment where Discord accepts every call, nobody logs in and
    submissions are refused; [q] answers the status requests. *)
Definition quiet (q : Z -> Response) : Env :=
  mkEnv q (fun _ _ _ _ => ResponseError ClientError) (fun _ _ => None)
        (fun _ => None) 300 None 0.

(** Every status request is answered with status [st], modified at [t]. *)
Definition env_all (st : string) (t : datetime) : Env :=
  quiet (fun _ => ResponseJson (reports st t None)).

(** The request for the job 3 fails; the job 7 has failed remotely. *)
Definition env_3_fails : Env :=
  quiet (fun job_id =>
           if decide (job_id = 3) then ResponseError ClientError
           else ResponseJson (reports "failure" 9 (Some "invalid title"))).

(** The cog with the session of [ann] cached and no job. *)
Definition ann_logged_in : Eurocore := mkEurocore [] {[10 := ann]} false.

(** The remote API answers a submission with a job 42 of status [st] and
    accepts every sign-in; Discord accepts every call; the clock shows
    [t]. *)
Definition env_submit (st : string) (t : datetime) : Env :=
  mkEnv (fun _ => ResponseError ClientError)
        (fun _ _ _ _ =>
           ResponseJson
             (mkResponseData (Some 42) (Some "add") (Some (Instant 5))
                             (Some (Instant 5)) (Some st) (Some None)
                             (Some None)))
        (fun _ _ => Some "t1") (fun _ => None) 142 None t.

(** A text file, and a picture. *)
Definition notes : Attachment :=
  mkAttachment (Some "text/plain; charset=utf-8") (Some "hello").

Definition picture : Attachment := mkAttachment (Some "image/png") None.

(** ** Vocabulary of further properties *)

(** The job ids a trace asks the queue endpoint about, in order. *)
Definition requested (tr : list event) : list Z :=
  omap (fun ev => match ev with EvGet job_id => Some job_id | _ => None end) tr.

(** A tracked item as [dispatch] makes them: under the id of its job,
    with a message to render into. *)
Definition well_tracked (item : Z * Job.t) : Prop :=
  item.1 = Job.id item.2 /\ is_Some (Job.message item.2).

(** An event that is not a submission to the dispatch endpoint. *)
Definition not_request (ev : event) : Prop :=
  match ev with
  | EvRequest _ _ _ _ => False
  | _ => True
  end.

(** The submissions among the events go out as [method], to [path], with
    a body or without. *)
Definition addressed (method : string) (path : option Z) (body : bool)
    (ev : event) : Prop :=
  match ev with
  | EvRequest m p _ j =>
      m = method /\ p = path /\ (if body then is_Some j else j = None)
  | _ => True
  end.

(** Once an interaction has been responded to, it stays so. *)
Definition stays_responded {A} (m : M Eurocore A) : Prop :=
  forall s, response_is_done s = true -> response_is_done (final (m s)) = true.


(** Further sample worlds: the job 7 before its message is set, and an
    environment where the remote API accepts a submission and Discord
    refuses every call. *)
Definition job_7_unsent : Job.t :=
  Job.init ann 7 "edit" 6 6 "queued" true (Some 9001) None.

Definition env_discord_down : Env :=
  mkEnv (queue_dispatch (env_submit "queued" 0))
        (dispatch_endpoint (env_submit "queued" 0))
        (fun _ _ => Some "t1") (fun _ => Some HTTPException) 142 None 0.

(** * Properties *)

(** The programs are unfolded by their own lemmas only. *)
Arguments update : simpl never.
Arguments poll_job : simpl never.
Arguments poll_jobs : simpl never.
Arguments get_user : simpl never.
Arguments dispatch : simpl never.
Arguments add_dispatch : simpl never.
Arguments edit_dispatch : simpl never.


(** ** Runs of [Job.update] *)

(** [Job.update], one assignment after the other. *)
Lemma update_unfold env job :
  update env job =
  let tr := [EvGet (Job.id job)] in
  match queue_dispatch env (Job.id job) with
  | ResponseError e => Run (Raise e) job tr
  | ResponseJson data =>
    match rd_status data with
    | None => Run (Raise (KeyError "status")) job tr
    | Some st =>
      let job1 := Job.set_status st job in
      match rd_modified_at data with
      | None => Run (Raise (KeyError "modified_at")) job1 tr
      | Some Unparseable => Run (Raise ValueError) job1 tr
      | Some (Instant t) =>
        let job2 := Job.set_modified_at t job1 in
        match rd_dispatch_id data with
        | None => Run (Raise (KeyError "dispatch_id")) job2 tr
        | Some d =>
          let job3 := Job.set_dispatch_id d job2 in
          match rd_error data with
          | None => Run (Raise (KeyError "error")) job3 tr
          | Some e =>
            let job4 := Job.set_error e job3 in
            match Job.message job with
            | None => Run (Raise AttributeError) job4 tr
            | Some m =>
              let c := message_edit m (Job.embed job4) in
              match discord env c with
              | Some x => Run (Raise x) job4 (tr ++ [EvDiscord c])
              | None => Run (Ok tt) job4 (tr ++ [EvDiscord c])
              end
            end
          end
        end
      end
    end
  end.
Proof.
  cbv [update client_get bind get emit modify getitem strptime ret raise
       message_of call_discord after].
  destruct (queue_dispatch env (Job.id job)) as [x|data]; [done|].
  destruct (rd_status data) as [st|]; [|done].
  destruct (rd_modified_at data) as [[|t]|]; [done| |done].
  destruct (rd_dispatch_id data) as [d|]; [|done].
  destruct (rd_error data) as [e|]; [|done].
  cbn [Job.message Job.set_error Job.set_dispatch_id Job.set_modified_at
       Job.set_status].
  destruct (Job.message job) as [m|]; [|done].
  destruct (discord env _); done.
Qed.

Lemma set_all_updated st t d e job :
  Job.set_error e (Job.set_dispatch_id d
    (Job.set_modified_at t (Job.set_status st job))) = updated st t d e job.
Proof. reflexivity. Qed.

(** An update that returns has read a whole descriptor and rendered it. *)
Lemma update_ok_inv env job :
  result (update env job) = Ok tt ->
  exists data st t d e m,
    queue_dispatch env (Job.id job) = ResponseJson data /\
    descriptor data = Some (st, t, d, e) /\
    Job.message job = Some m /\
    discord env (message_edit m (Job.embed (updated st t d e job))) = None /\
    final (update env job) = updated st t d e job /\
    trace (update env job)
    = [EvGet (Job.id job);
       EvDiscord (message_edit m (Job.embed (updated st t d e job)))].
Proof.
  rewrite update_unfold; cbn; unfold descriptor.
  destruct (queue_dispatch env (Job.id job)) as [x|data]; [done|].
  destruct (rd_status data) as [st|] eqn:Hst; [|done].
  destruct (rd_modified_at data) as [[|t]|] eqn:Ht; [done| |done].
  destruct (rd_dispatch_id data) as [d|] eqn:Hd; [|done].
  destruct (rd_error data) as [e|] eqn:He; [|done].
  destruct (Job.message job) as [m|] eqn:Hm; [|done].
  rewrite set_all_updated.
  destruct (discord env _) eqn:Hc; [done|].
  intros _. exists data, st, t, d, e, m.
  rewrite Hst, Ht, Hd, He. done.
Qed.

(** And the other way round. *)
Lemma update_ok_intro env job data st t d e m :
  queue_dispatch env (Job.id job) = ResponseJson data ->
  descriptor data = Some (st, t, d, e) ->
  Job.message job = Some m ->
  discord env (message_edit m (Job.embed (updated st t d e job))) = None ->
  update env job
  = Run (Ok tt) (updated st t d e job)
        [EvGet (Job.id job);
         EvDiscord (message_edit m (Job.embed (updated st t d e job)))].
Proof.
  intros Hq Hdesc Hm Hc. rewrite update_unfold; cbn. rewrite Hq.
  unfold descriptor in Hdesc.
  destruct (rd_status data) as [st'|]; [|done].
  destruct (rd_modified_at data) as [[|t']|]; [done| |done].
  destruct (rd_dispatch_id data) as [d'|]; [|done].
  destruct (rd_error data) as [e'|]; [|done].
  simplify_eq. rewrite Hm, set_all_updated, Hc. done.
Qed.

(** A failed request leaves the job as it was. *)
Lemma update_response_error env job e :
  queue_dispatch env (Job.id job) = ResponseError e ->
  update env job = Run (Raise e) job [EvGet (Job.id job)].
Proof. intros Hq. rewrite update_unfold; cbn. by rewrite Hq. Qed.

(** [Job.update] never stays suspended. *)
Lemma update_not_pending env job : result (update env job) <> Pending.
Proof.
  rewrite update_unfold; cbn.
  repeat (case_match; try done).
Qed.

(** The fields [Job.update] does not assign. *)
Lemma update_frame env job :
  let job' := final (update env job) in
  Job.id job' = Job.id job /\
  Job.user job' = Job.user job /\
  Job.action job' = Job.action job /\
  Job.created_at job' = Job.created_at job /\
  Job.ping_on_completion job' = Job.ping_on_completion job /\
  Job.message job' = Job.message job.
Proof.
  rewrite update_unfold; cbn.
  repeat (case_match; try done).
Qed.

(** ** Runs of the loop body and of the loop *)

Lemma poll_job_unfold env k job :
  poll_job env k job =
  match update env job with
  | Run (Ok _) job' tr =>
      if decide (Job.status job' = "queued") then Run (Ok tt) job' tr
      else if Job.ping_on_completion job' then
        match Job.message job' with
        | None => Run (Raise AttributeError) job' tr
        | Some m =>
            let c := message_reply m (User.id (Job.user job')) in
            match discord env c with
            | Some x => Run (Raise x) job' (tr ++ [EvDiscord c])
            | None => Run (Ok tt) job' (tr ++ [EvDiscord c])
            end
        end
      else Run (Ok tt) job' tr
  | Run (Raise e) job' tr => Run (Raise e) job' tr
  | Run Pending job' tr => Run Pending job' tr
  end.
Proof.
  unfold poll_job, bind at 1.
  destruct (update env job) as [[[]|e|] job' tr]; [|done|done].
  cbv [bind get after ret message_of call_discord emit raise].
  destruct (decide (Job.status job' = "queued")); cbn [after].
  { by rewrite !app_nil_r. }
  destruct (Job.ping_on_completion job'); [|by rewrite !app_nil_r].
  destruct (Job.message job') as [m|]; [|by rewrite !app_nil_r].
  destruct (discord env _); by rewrite ?app_nil_r.
Qed.

(** The body leaves the job as [Job.update] left it. *)
Lemma poll_job_final env k job :
  final (poll_job env k job) = final (update env job).
Proof.
  rewrite poll_job_unfold.
  destruct (update env job) as [[[]|e|] job' tr]; cbn; try done.
  repeat (case_match; try done).
Qed.

Lemma poll_job_not_pending env k job : result (poll_job env k job) <> Pending.
Proof.
  rewrite poll_job_unfold. pose proof (update_not_pending env job) as Hnp.
  destruct (update env job) as [[[]|e|] job' tr]; cbn in *; try done.
  repeat (case_match; try done).
Qed.

(** When [Job.update] raises, so does the body, there and then. *)
Lemma poll_job_update_raises env k job e :
  result (update env job) = Raise e ->
  poll_job env k job = update env job.
Proof.
  intros Hr. rewrite poll_job_unfold.
  destruct (update env job) as [[[]|e'|] job' tr]; cbn in *; done.
Qed.

(** A body that returns has updated the job, rendered it, and pinged its
    owner when the job is no longer queued and asked for a ping. *)
Lemma poll_job_ok_inv env k job :
  result (poll_job env k job) = Ok tt ->
  result (update env job) = Ok tt /\
  sweep_segment env (k, job) (trace (poll_job env k job)).
Proof.
  rewrite poll_job_unfold. unfold sweep_segment. cbn [snd].
  destruct (update env job) as [res job' tr] eqn:Hu.
  assert (Hres : result (update env job) = res) by (by rewrite Hu).
  assert (Hfin : final (update env job) = job') by (by rewrite Hu).
  assert (Htr : trace (update env job) = tr) by (by rewrite Hu).
  destruct res as [[]|e|]; [|done|done].
  destruct (update_ok_inv env job Hres)
    as (data & st & t & d & e & m & Hq & Hdesc & Hm & Hc & Hfin' & Htr').
  pose proof (update_frame env job) as (_ & Hus & _ & _ & Hping & Hmsg).
  rewrite Hfin in Hus, Hping, Hmsg, Hfin'. rewrite Htr in Htr'.
  cbn [final]. rewrite Hping, Hmsg, Hm, Hus.
  destruct (decide (Job.status job' = "queued")).
  { intros _. split; [done|]. exists m. split; [done|].
    cbn. rewrite ?app_nil_r. by rewrite Htr', Hfin'. }
  destruct (Job.ping_on_completion job).
  - destruct (discord env (message_reply _ _)); [done|].
    intros _. split; [done|].
    exists m. split; [done|]. cbn. by rewrite Htr', Hfin'.
  - intros _. split; [done|]. exists m. split; [done|].
    cbn. rewrite ?app_nil_r. by rewrite Htr', Hfin'.
Qed.

(** The loop keeps the keys, in order, wherever it stops. *)
Lemma for_items_keys body items :
  keys (final (for_items body items)) = keys items.
Proof.
  unfold keys. induction items as [|[k job] rest IH]; [done|].
  cbn. destruct (result (body k job)); cbn; by rewrite ?IH.
Qed.

(** A loop that returns has run its body on every item. *)
Lemma for_items_ok_inv body items :
  result (for_items body items) = Ok tt ->
  Forall (fun item => result (body item.1 item.2) = Ok tt) items /\
  final (for_items body items)
  = ((fun item => (item.1, final (body item.1 item.2))) <$> items) /\
  trace (for_items body items)
  = List.concat ((fun item => trace (body item.1 item.2)) <$> items).
Proof.
  induction items as [|[k job] rest IH]; [done|].
  cbn. destruct (result (body k job)) as [[]|e|] eqn:Hb; cbn; [|done|done].
  intros Hr. destruct (IH Hr) as (Hall & Hfin & Htr).
  split; [by constructor|]. by rewrite Hfin, Htr.
Qed.

(** A loop whose body raises on an item stops there: the items before
    have been through the body, the items after are as they were. *)
Lemma for_items_raise body pre k job post e :
  Forall (fun item => result (body item.1 item.2) = Ok tt) pre ->
  result (body k job) = Raise e ->
  for_items body (pre ++ (k, job) :: post)
  = Run (Raise e)
        (((fun item => (item.1, final (body item.1 item.2))) <$> pre)
         ++ (k, final (body k job)) :: post)
        (List.concat ((fun item => trace (body item.1 item.2)) <$> pre)
         ++ trace (body k job)).
Proof.
  intros Hpre Hb. induction Hpre as [|[k' job'] pre Hok _ IH].
  - cbn. by rewrite Hb.
  - cbn in *. rewrite Hok, IH. cbn. by rewrite app_assoc.
Qed.

Lemma poll_jobs_unfold env s :
  poll_jobs env s =
  let r := for_items (poll_job env) (jobs s) in
  match result r with
  | Ok _ => Run (Ok tt) (with_jobs (filter is_queued (final r)) s)
                (EvLog PollingJobs :: trace r)
  | Raise e => Run (Raise e) (with_jobs (final r) s)
                   (EvLog PollingJobs :: trace r)
  | Pending => Run Pending (with_jobs (final r) s)
                   (EvLog PollingJobs :: trace r)
  end.
Proof.
  cbv [poll_jobs bind emit on_jobs modify after].
  destruct (for_items (poll_job env) (jobs s)) as [[[]|e|] js tr]; cbn;
    by rewrite ?app_nil_r.
Qed.

(** A sweep that returns has run the body on every tracked job and keeps
    the queued ones. *)
Lemma poll_jobs_ok_inv env s :
  result (poll_jobs env s) = Ok tt ->
  Forall (fun item => result (poll_job env item.1 item.2) = Ok tt) (jobs s) /\
  jobs (final (poll_jobs env s)) = filter is_queued (polled env <$> jobs s) /\
  trace (poll_jobs env s)
  = EvLog PollingJobs
    :: List.concat ((fun item => trace (poll_job env item.1 item.2)) <$> jobs s).
Proof.
  rewrite poll_jobs_unfold. cbn zeta.
  destruct (result (for_items (poll_job env) (jobs s))) as [[]|e|] eqn:Hr;
    [|done|done].
  intros _. destruct (for_items_ok_inv _ _ Hr) as (Hall & Hfin & Htr).
  cbn. by rewrite Hfin, Htr.
Qed.

(** In a dictionary, a key has one value. *)
Lemma keys_unique {V} (d : list (Z * V)) k v v' :
  NoDup (keys d) -> (k, v) ∈ d -> (k, v') ∈ d -> v = v'.
Proof.
  unfold keys. induction d as [|[k0 v0] d IH]; cbn.
  { intros _ Hin. by apply elem_of_nil in Hin. }
  rewrite NoDup_cons, !elem_of_cons. intros [Hk0 Hnd] [Heq|Hin] [Heq'|Hin'].
  - congruence.
  - simplify_eq. destruct Hk0. apply list_elem_of_fmap.
    eexists; split; [|eassumption]; done.
  - simplify_eq. destruct Hk0. apply list_elem_of_fmap.
    eexists; split; [|eassumption]; done.
  - by apply IH.
Qed.

(** ** The sweep *)

(** C3.  A sweep that completes leaves out every job whose update in that
    sweep made its status terminal ([success] or [failure]), and keeps
    every job whose update left it [queued], as updated. *)
Theorem poll_jobs_drops_terminal_keeps_queued env s (k : Z) (job : Job.t) :
  NoDup (keys (jobs s)) ->
  (k, job) ∈ jobs s ->
  result (poll_jobs env s) = Ok tt ->
  let job' := final (update env job) in
  (terminal (Job.status job') -> k ∉ keys (jobs (final (poll_jobs env s)))) /\
  (Job.status job' = "queued" -> (k, job') ∈ jobs (final (poll_jobs env s))).
Proof.
  intros Hnd Hin Hok job'.
  destruct (poll_jobs_ok_inv env s Hok) as (_ & Hjobs & _). rewrite Hjobs.
  assert (Hpolled : polled env (k, job) = (k, job')).
  { unfold polled; cbn. by rewrite poll_job_final. }
  split.
  - intros Hterm Hk. unfold keys in Hk.
    apply list_elem_of_fmap in Hk as ([k1 j1] & -> & Hin1).
    apply list_elem_of_filter in Hin1 as [Hq Hin1].
    apply list_elem_of_fmap in Hin1 as ([k0 j0] & Heq & Hin0).
    unfold polled in Heq; cbn in Heq. simplify_eq.
    rewrite poll_job_final in Hq. unfold is_queued in Hq; cbn in Hq.
    assert (j0 = job) as -> by (by eapply keys_unique).
    subst job'. destruct Hterm as [Ht|Ht]; rewrite Ht in Hq; discriminate.
  - intros Hq. apply list_elem_of_filter. split; [done|].
    rewrite <- Hpolled. by apply list_elem_of_fmap_2.
Qed.

(** The events of a sweep are the log line and those of the loop. *)
Lemma poll_jobs_trace env s :
  trace (poll_jobs env s)
  = EvLog PollingJobs :: trace (for_items (poll_job env) (jobs s)).
Proof.
  rewrite poll_jobs_unfold. cbn zeta.
  by destruct (result (for_items (poll_job env) (jobs s))) as [[]|e|].
Qed.

(** The loop sends what its body sends, item after item, as long as the
    body returns. *)
Lemma for_items_trace_prefix body served rest :
  Forall (fun item => result (body item.1 item.2) = Ok tt) served ->
  trace (for_items body (served ++ rest))
  = List.concat ((fun item => trace (body item.1 item.2)) <$> served)
    ++ trace (for_items body rest).
Proof.
  induction 1 as [|[k job] served Hok _ IH]; [done|].
  cbn in *. rewrite Hok. cbn. by rewrite IH, app_assoc.
Qed.


Lemma poll_jobs_drops_terminal_witness :
  7 ∉ keys (jobs (final (poll_jobs (env_all "success" 9) two_jobs))).
Proof.
  refine (proj1 (poll_jobs_drops_terminal_keeps_queued
                   (env_all "success" 9) two_jobs 7 job_7 _ _ _) _).
  - apply (bool_decide_unpack _). vm_compute. exact I.
  - cbn. repeat constructor.
  - vm_compute. reflexivity.
  - left. vm_compute. reflexivity.
Defined.


(** C1, as amended.  When [Job.update] raises on a tracked job, the sweep
    raises the same exception there: the jobs before it in the
    dictionary have been through the loop body, the job itself is as the
    failed update left it (untouched when the request or the decoding of
    its answer failed), the jobs after it are neither requested nor
    changed, and no job is removed. *)
Theorem poll_jobs_stops_at_failing_job env s pre (k : Z) (job : Job.t) post e :
  jobs s = pre ++ (k, job) :: post ->
  Forall (fun item => result (poll_job env item.1 item.2) = Ok tt) pre ->
  result (update env job) = Raise e ->
  result (poll_jobs env s) = Raise e /\
  jobs (final (poll_jobs env s))
  = (polled env <$> pre) ++ (k, final (update env job)) :: post /\
  trace (poll_jobs env s)
  = EvLog PollingJobs
    :: List.concat ((fun item => trace (poll_job env item.1 item.2)) <$> pre)
    ++ trace (update env job) /\
  (forall e', queue_dispatch env (Job.id job) = ResponseError e' ->
              final (update env job) = job).
Proof.
  intros Hjobs Hpre Hraise.
  assert (Hbody : result (poll_job env k job) = Raise e).
  { by rewrite (poll_job_update_raises env k job e Hraise). }
  rewrite poll_jobs_unfold, Hjobs. cbn zeta.
  rewrite (for_items_raise (poll_job env) pre k job post e Hpre Hbody).
  cbn. rewrite (poll_job_update_raises env k job e Hraise).
  repeat split; try done.
  intros e' Hq. by rewrite (update_response_error env job e' Hq).
Qed.

Lemma poll_jobs_stops_at_failing_job_witness :
  result (poll_jobs env_3_fails two_jobs) = Raise ClientError /\
  jobs (final (poll_jobs env_3_fails two_jobs)) = [(3, job_3); (7, job_7)].
Proof.
  destruct (poll_jobs_stops_at_failing_job env_3_fails two_jobs
              [] 3 job_3 [(7, job_7)] ClientError)
    as (Hres & Hjobs & _ & Hsame).
  - reflexivity.
  - constructor.
  - vm_compute. reflexivity.
  - split; [exact Hres|].
    rewrite Hjobs, (Hsame ClientError); [reflexivity|].
    vm_compute. reflexivity.
Defined.

(** C1 as written fails: the request for the job 3 fails, the job 7 has
    failed remotely, and the sweep leaves the job 7 tracked. *)
Lemma sweep_isolates_failures_fails : ~ sweep_isolates_failures.
Proof.
  intros H.
  destruct (H env_3_fails two_jobs 3 job_3 ClientError) as [_ Hothers].
  - apply (bool_decide_unpack _). vm_compute. exact I.
  - cbn. repeat constructor.
  - vm_compute. reflexivity.
  - reflexivity.
  - specialize (Hothers 7 job_7 (reports "failure" 9 (Some "invalid title"))
                        "failure" 9 (Some 9001) (Some "invalid title")).
    cbn in Hothers. apply Hothers.
    + repeat constructor.
    + discriminate.
    + vm_compute. reflexivity.
    + reflexivity.
    + assert (Hk : keys (jobs (final (poll_jobs env_3_fails two_jobs))) = [3; 7])
        by (vm_compute; reflexivity).
      rewrite Hk. repeat constructor.
Qed.

(** ** [Job.update]: what it writes and what it leaves *)

(** C6.  [Job.update] leaves [id], [user], [action], [created_at],
    [ping_on_completion] and [message] as they were, however it ends;
    when it returns, the job is the old one with [status],
    [modified_at], [dispatch_id] and [error] of the descriptor read. *)
Theorem update_overwrites_descriptor_fields env job :
  let job' := final (update env job) in
  (Job.id job' = Job.id job /\
   Job.user job' = Job.user job /\
   Job.action job' = Job.action job /\
   Job.created_at job' = Job.created_at job /\
   Job.ping_on_completion job' = Job.ping_on_completion job /\
   Job.message job' = Job.message job) /\
  (result (update env job) = Ok tt ->
   exists data st t d e,
     queue_dispatch env (Job.id job) = ResponseJson data /\
     rd_status data = Some st /\
     rd_modified_at data = Some (Instant t) /\
     rd_dispatch_id data = Some d /\
     rd_error data = Some e /\
     job' = Job.mk (Job.id job) (Job.user job) (Job.action job)
                   (Job.created_at job) t st d e
                   (Job.ping_on_completion job) (Job.message job)).
Proof.
  split; [apply update_frame|].
  intros Hok.
  destruct (update_ok_inv env job Hok)
    as (data & st & t & d & e & m & Hq & Hdesc & _ & _ & Hfin & _).
  exists data, st, t, d, e. split; [done|].
  unfold descriptor in Hdesc.
  destruct (rd_status data) as [st'|]; [|done].
  destruct (rd_modified_at data) as [[|t']|]; [done| |done].
  destruct (rd_dispatch_id data) as [d'|]; [|done].
  destruct (rd_error data) as [e'|]; [|done].
  by simplify_eq.
Qed.

Lemma update_overwrites_descriptor_fields_witness :
  final (update (env_all "success" 9) job_7)
  = Job.mk 7 ann "edit" 6 9 "success" (Some 9001) None true (Some 107).
Proof.
  destruct (update_overwrites_descriptor_fields (env_all "success" 9) job_7)
    as [_ Hwritten].
  destruct Hwritten as (data & st & t & d & e & Hq & Hst & Ht & Hd & He & Hjob).
  - vm_compute. reflexivity.
  - cbv in Hq, Hst, Ht, Hd, He. simplify_eq. exact Hjob.
Defined.

(** C2, as amended.  In a sweep that completes, the status of a tracked
    job after its update is the one the remote descriptor carries,
    whatever the status was before; and the jobs tracked after the sweep
    are all queued and were all tracked before: a job that the sweep left
    terminal is not there for a later sweep to update. *)
Theorem poll_jobs_status_follows_remote env s (k : Z) (job : Job.t) :
  (k, job) ∈ jobs s ->
  result (poll_jobs env s) = Ok tt ->
  (exists data,
     queue_dispatch env (Job.id job) = ResponseJson data /\
     rd_status data = Some (Job.status (final (update env job)))) /\
  (forall item, item ∈ jobs (final (poll_jobs env s)) ->
                Job.status item.2 = "queued") /\
  keys (jobs (final (poll_jobs env s))) ⊆ keys (jobs s).
Proof.
  intros Hin Hok.
  destruct (poll_jobs_ok_inv env s Hok) as (Hall & Hjobs & _).
  split; [|split].
  - rewrite Forall_forall in Hall. specialize (Hall _ Hin). cbn in Hall.
    destruct (poll_job_ok_inv env k job Hall) as [Hu _].
    destruct (update_ok_inv env job Hu)
      as (data & st & t & d & e & m & Hq & Hdesc & _ & _ & Hfin & _).
    exists data. split; [done|]. rewrite Hfin. cbn.
    unfold descriptor in Hdesc. repeat case_match; by simplify_eq.
  - intros item Hitem. rewrite Hjobs in Hitem.
    by apply list_elem_of_filter in Hitem as [Hq _].
  - intros k' Hk'. rewrite Hjobs in Hk'. unfold keys in *.
    apply list_elem_of_fmap in Hk' as ([k1 j1] & -> & Hin1).
    apply list_elem_of_filter in Hin1 as [_ Hin1].
    apply list_elem_of_fmap in Hin1 as ([k0 j0] & Heq & Hin0).
    unfold polled in Heq; cbn in Heq. simplify_eq.
    apply list_elem_of_fmap. by exists (k0, j0).
Qed.

Lemma poll_jobs_status_follows_remote_witness :
  exists data,
    queue_dispatch (env_all "failure" 9) (Job.id job_7) = ResponseJson data /\
    rd_status data
    = Some (Job.status (final (update (env_all "failure" 9) job_7))).
Proof.
  refine (proj1 (poll_jobs_status_follows_remote
                   (env_all "failure" 9) two_jobs 7 job_7 _ _)).
  - cbn. repeat constructor.
  - vm_compute. reflexivity.
Defined.

(** C2 as written fails: the job 7 is reported [success], then
    [queued]; the second update takes it out of [success]. *)
Lemma status_never_leaves_terminal_fails : ~ status_never_leaves_terminal.
Proof.
  intros H.
  specialize (H [env_all "success" 9] [env_all "queued" 10] job_7).
  assert (Hterm : terminal (Job.status (update_all [env_all "success" 9] job_7)))
    by (left; vm_compute; reflexivity).
  specialize (H Hterm). vm_compute in H. discriminate H.
Qed.

(** C9, as amended.  After an update that returns, [modified_at] is the
    instant of the [modified_at] field of the descriptor read; from one
    such update to the next it does not decrease exactly when the
    instants the remote reports do not. *)
Theorem update_modified_at_follows_remote env env' job :
  result (update env job) = Ok tt ->
  result (update env' (final (update env job))) = Ok tt ->
  exists data data' t t',
    queue_dispatch env (Job.id job) = ResponseJson data /\
    rd_modified_at data = Some (Instant t) /\
    queue_dispatch env' (Job.id job) = ResponseJson data' /\
    rd_modified_at data' = Some (Instant t') /\
    Job.modified_at (final (update env job)) = t /\
    Job.modified_at (final (update env' (final (update env job)))) = t' /\
    (Job.modified_at (final (update env job))
     <= Job.modified_at (final (update env' (final (update env job))))
     <-> t <= t').
Proof.
  intros Hok Hok'.
  pose proof (update_frame env job) as (Hid & _).
  destruct (update_ok_inv env job Hok)
    as (data & st & t & d & e & m & Hq & Hdesc & _ & _ & Hfin & _).
  destruct (update_ok_inv env' _ Hok')
    as (data' & st' & t' & d' & e' & m' & Hq' & Hdesc' & _ & _ & Hfin' & _).
  rewrite Hid in Hq'.
  exists data, data', t, t'. rewrite Hfin', Hfin. cbn.
  unfold descriptor in Hdesc, Hdesc'.
  repeat split; try done; repeat case_match; by simplify_eq.
Qed.

Lemma update_modified_at_follows_remote_witness :
  Job.modified_at (final (update (env_all "queued" 9) job_7)) = 9 /\
  Job.modified_at
    (final (update (env_all "queued" 3)
                   (final (update (env_all "queued" 9) job_7)))) = 3.
Proof.
  destruct (update_modified_at_follows_remote
              (env_all "queued" 9) (env_all "queued" 3) job_7)
    as (data & data' & t & t' & Hq & Ht & Hq' & Ht' & Hm & Hm' & _).
  - vm_compute. reflexivity.
  - vm_compute. reflexivity.
  - rewrite Hm, Hm'. clear Hm Hm'. cbv in Hq, Hq'. simplify_eq.
    cbv in Ht, Ht'. by simplify_eq.
Defined.

(** C9 as written fails: the remote reports the job 7 modified at 9, then
    at 3. *)
Lemma modified_at_non_decreasing_fails : ~ modified_at_non_decreasing.
Proof.
  intros H.
  specialize (H (env_all "queued" 9) (env_all "queued" 3) job_7).
  vm_compute in H. by apply H.
Qed.

(** ** Sessions and submissions *)

Lemma keeps_jobs_bind {A B} (m : M Eurocore A) (k : A -> M Eurocore B) :
  keeps_jobs m -> (forall a, keeps_jobs (k a)) -> keeps_jobs (bind m k).
Proof.
  intros Hm Hk s. unfold bind. specialize (Hm s).
  destruct (m s) as [[a|e|] s' tr]; cbn in *; try done.
  specialize (Hk a s'). destruct (k a s'); cbn in *. congruence.
Qed.

Lemma emits_bind {S A B} P (m : M S A) (k : A -> M S B) :
  emits P m -> (forall a, emits P (k a)) -> emits P (bind m k).
Proof.
  intros Hm Hk s. unfold bind. specialize (Hm s).
  destruct (m s) as [[a|e|] s' tr]; cbn in *; try done.
  specialize (Hk a s'). destruct (k a s'); cbn in *. by apply Forall_app.
Qed.

Lemma keeps_jobs_ret {A} (a : A) : keeps_jobs (ret a).
Proof. done. Qed.
Lemma keeps_jobs_raise {A} e : keeps_jobs (@raise _ A e).
Proof. done. Qed.
Lemma keeps_jobs_suspend {A} : keeps_jobs (@suspend _ A).
Proof. done. Qed.
Lemma keeps_jobs_get : keeps_jobs get.
Proof. done. Qed.
Lemma keeps_jobs_emit ev : keeps_jobs (emit ev).
Proof. done. Qed.
Lemma keeps_jobs_call_discord env c : keeps_jobs (call_discord env c).
Proof. intros s. unfold call_discord, bind; cbn. by destruct (discord env c). Qed.
Lemma keeps_jobs_respond env c : keeps_jobs (respond env c).
Proof.
  intros s. unfold respond, bind at 1; cbn. destruct (response_is_done s); [done|].
  unfold bind. pose proof (keeps_jobs_call_discord env c s) as H.
  destruct (call_discord env c s) as [[[]|e|] s' tr]; cbn in *; done.
Qed.
Lemma keeps_jobs_sign_in env u : keeps_jobs (sign_in env u).
Proof. intros s. unfold sign_in, bind; cbn. by destruct (authenticate env _ _). Qed.
Lemma keeps_jobs_add_user uid u : keeps_jobs (add_user uid u).
Proof. done. Qed.

Create HintDb keeps_jobs.
#[global] Hint Resolve keeps_jobs_ret keeps_jobs_raise keeps_jobs_suspend keeps_jobs_get
  keeps_jobs_emit keeps_jobs_call_discord keeps_jobs_respond keeps_jobs_sign_in
  keeps_jobs_add_user : keeps_jobs.

Ltac keeps_jobs :=
  repeat first
    [ apply keeps_jobs_bind; [|intros ?]
    | solve [auto with keeps_jobs]
    | match goal with |- keeps_jobs (match ?x with _ => _ end) => destruct x end ].

Lemma keeps_jobs_on_submit env uid username password :
  keeps_jobs (LoginModal_on_submit env uid username password).
Proof. unfold LoginModal_on_submit. keeps_jobs. Qed.

Lemma keeps_jobs_on_error env e : keeps_jobs (LoginModal_on_error env e).
Proof. unfold LoginModal_on_error. keeps_jobs. Qed.

Lemma keeps_jobs_modal_wait env uid : keeps_jobs (modal_wait env uid).
Proof.
  unfold modal_wait. destruct (modal_submission env) as [[username password]|];
    [|done].
  intros s. pose proof (keeps_jobs_on_submit env uid username password s) as H.
  destruct (LoginModal_on_submit env uid username password s) as [[[]|e|] s' tr];
    cbn [result final] in *; try done.
  by rewrite (keeps_jobs_on_error env e s').
Qed.

Lemma get_user_jobs env uid : keeps_jobs (get_user env uid).
Proof.
  pose proof keeps_jobs_modal_wait.
  unfold get_user. keeps_jobs.
Qed.

Lemma bind_ok_inv {S A B} (m : M S A) (k : A -> M S B) s b :
  result (bind m k s) = Ok b ->
  exists a,
    result (m s) = Ok a /\
    result (k a (final (m s))) = Ok b /\
    final (bind m k s) = final (k a (final (m s))) /\
    trace (bind m k s) = trace (m s) ++ trace (k a (final (m s))).
Proof.
  unfold bind. destruct (m s) as [[a|e|] s' tr]; cbn; [|done|done].
  destruct (k a s') as [res s'' tr'] eqn:Hk; cbn. intros ->.
  exists a. by rewrite Hk.
Qed.

Lemma get_user_cached env s uid user :
  user_list s !! uid = Some user ->
  get_user env uid s =
  if decide (now env - User.last_login user > twelve_hours) then
    match authenticate env (User.name user) (User.password user) with
    | Some tok =>
        let user' := User.signed_in tok (now env) user in
        Run (Ok user') (with_user_list (<[uid := user']> (user_list s)) s)
            [EvSignIn (User.name user)]
    | None => Run (Raise AuthenticationError) s [EvSignIn (User.name user)]
    end
  else Run (Ok user) s [].
Proof.
  intros Hcached.
  cbv [get_user bind get ret after sign_in add_user emit modify raise].
  rewrite Hcached. cbn [after app]. rewrite Hcached.
  destruct (decide (now env - User.last_login user > twelve_hours)); [|done].
  destruct (authenticate env _ _); done.
Qed.

(** The session [get_user] returns is the cached one. *)
Lemma get_user_returns_cached env uid s user :
  result (get_user env uid s) = Ok user ->
  user_list (final (get_user env uid s)) !! uid = Some user.
Proof.
  unfold get_user.
  set (tail := bind get (fun s => match user_list s !! uid with
                                  | None => _ | Some u => _ end)).
  assert (Htail : forall s u, result (tail s) = Ok u ->
                              user_list (final (tail s)) !! uid = Some u).
  { intros s0 u. subst tail.
    cbv [bind get ret after sign_in add_user emit modify raise].
    destruct (user_list s0 !! uid) as [u0|] eqn:Hu0; [|done].
    destruct (decide (now env - User.last_login u0 > twelve_hours)).
    - destruct (authenticate env _ _); [|done]. cbn.
      intros [= <-]. by rewrite lookup_insert_eq.
    - cbn. by intros [= <-]. }
  intros Hok.
  apply bind_ok_inv in Hok as (s1 & _ & Hok & -> & _). cbn [get final] in *.
  apply bind_ok_inv in Hok as (? & _ & Hok & -> & _).
  by apply Htail.
Qed.

(** C5.  For an identity with a cached session: within 12 hours of the
    last login [get_user] returns the cached session and does nothing
    else (no login modal, no sign-in, no change of state); after more than
    12 hours it signs the cached session in again, without a modal: it
    sends and returns what [sign_in] does, and the renewed session it
    returns has replaced the cached one. *)
Theorem get_user_cached_session env s (uid : Z) (user : User.t) :
  user_list s !! uid = Some user ->
  (now env - User.last_login user <= twelve_hours ->
   get_user env uid s = Run (Ok user) s []) /\
  (now env - User.last_login user > twelve_hours ->
   result (get_user env uid s) = result (sign_in env user s) /\
   trace (get_user env uid s) = trace (sign_in env user s) /\
   forall user',
     result (get_user env uid s) = Ok user' ->
     User.token user'
     = default "" (authenticate env (User.name user) (User.password user)) /\
     User.last_login user' = now env /\
     user_list (final (get_user env uid s)) !! uid = Some user').
Proof.
  intros Hcached. rewrite (get_user_cached env s uid user Hcached).
  split; intros Hage.
  - destruct (decide (now env - User.last_login user > twelve_hours)); [lia|done].
  - destruct (decide (now env - User.last_login user > twelve_hours)); [|lia].
    cbv [sign_in bind emit after ret raise].
    destruct (authenticate env _ _); cbn; [|done].
    split; [done|]. split; [done|]. intros user' [= <-]. cbn.
    by rewrite lookup_insert_eq.
Qed.

(** A second lookup, while the session returned by the first is fresh,
    returns that session and sends nothing. *)
Lemma get_user_twice env env' uid s user :
  result (get_user env uid s) = Ok user ->
  now env' - User.last_login user <= twelve_hours ->
  get_user env' uid (final (get_user env uid s))
  = Run (Ok user) (final (get_user env uid s)) [].
Proof.
  intros Hok Hage. apply get_user_returns_cached in Hok.
  rewrite (get_user_cached env' _ uid user Hok).
  destruct (decide (now env' - User.last_login user > twelve_hours)); [lia|done].
Qed.

(** C7.  An add or an edit whose attachment is not of content type
    [text/plain; charset=utf-8] raises [UserInputError] at once: the
    state is as before, jobs included, and nothing has been sent, to the
    eurocore API or elsewhere; under the command tree the user is then
    told of the error. *)
Theorem submission_rejects_wrong_content_type env (uid : Z) title nation
    category dispatch_id content ping s :
  content_type content <> Some "text/plain; charset=utf-8" ->
  let rejected :=
    Run (Raise (UserInputError "content must be a .txt file")) s [] in
  add_dispatch env uid title nation category content ping s = rejected /\
  edit_dispatch env uid dispatch_id title category content ping s = rejected /\
  (response_is_done s = false ->
   jobs (final (app_command env
                  (add_dispatch env uid title nation category content ping) s))
   = jobs s /\
   trace (app_command env
            (add_dispatch env uid title nation category content ping) s)
   = [EvDiscord (send_message_text
                   (ErrorOccurred
                      (UserInputError "content must be a .txt file")))]).
Proof.
  intros Htype rejected.
  assert (Hadd : add_dispatch env uid title nation category content ping s
                 = rejected).
  { unfold add_dispatch. by destruct (decide _). }
  split; [exact Hadd|]. split.
  { unfold edit_dispatch. by destruct (decide _). }
  intros Hdone. unfold app_command. rewrite Hadd. subst rejected. cbn.
  unfold on_error, respond, bind at 1. cbn. rewrite Hdone.
  cbv [bind call_discord emit after modify ret raise].
  destruct (discord env _); done.
Qed.

(** A submission sets one job, as its last step: it either ends without
    having returned and leaves [self.jobs] alone, or returns having set,
    under the job id of the answer, the job built from the answer. *)
Lemma dispatch_jobs env (uid : Z) method data did ping s :
  let r := dispatch env uid method data did ping s in
  (result r <> Ok tt /\ jobs (final r) = jobs s) \/
  (exists user rdata job_id action created_at modified_at status d err,
     result r = Ok tt /\
     result (get_user env uid s) = Ok user /\
     dispatch_endpoint env method (path_of did) (User.token user) data
     = ResponseJson rdata /\
     rd_id rdata = Some job_id /\
     rd_status rdata = Some status /\
     jobs (final r)
     = dict_set job_id
         (Job.set_message (sent_message env)
            (Job.init user job_id action created_at modified_at status ping
                      d err))
         (jobs s)).
Proof.
  pose proof (get_user_jobs env uid s) as Hjobs.
  intros r. remember r as r' eqn:Hr. subst r.
  unfold dispatch, bind at 1 in Hr.
  destruct (get_user env uid s) as [[user|e|] s1 tr1];
    [|by subst r'; left|by subst r'; left].
  cbn [final] in Hjobs.
  cbv [bind client_request emit getitem strptime ret raise after get respond
       call_discord modify] in Hr.
  destruct (dispatch_endpoint env method (path_of did) (User.token user) data)
    as [x|rdata] eqn:Hq; [by subst r'; left|].
  destruct (rd_id rdata) as [job_id|] eqn:Hid; [|by subst r'; left].
  destruct (rd_action rdata) as [action|]; [|by subst r'; left].
  destruct (rd_created_at rdata) as [[|created_at]|];
    [by subst r'; left| |by subst r'; left].
  destruct (rd_modified_at rdata) as [[|modified_at]|];
    [by subst r'; left| |by subst r'; left].
  destruct (rd_status rdata) as [status|] eqn:Hst; [|by subst r'; left].
  destruct (rd_dispatch_id rdata) as [d|]; [|by subst r'; left].
  destruct (rd_error rdata) as [err|]; [|by subst r'; left].
  destruct (response_is_done s1) eqn:Hresp.
  - destruct (discord env (followup_send _)); cbn in Hr;
      [by subst r'; left|].
    subst r'. right.
    exists user, rdata, job_id, action, created_at, modified_at, status, d, err.
    cbn. by rewrite Hjobs.
  - cbn in Hr. rewrite Hresp in Hr.
    destruct (discord env (send_message_embed _)); cbn in Hr;
      [by subst r'; left|].
    destruct (discord env original_response); cbn in Hr;
      [by subst r'; left|].
    subst r'. right.
    exists user, rdata, job_id, action, created_at, modified_at, status, d, err.
    cbn. by rewrite Hjobs.
Qed.

(** C8, as amended.  A submission that completes tracks one job, under
    the job id of the answer of the remote API, with the status that
    answer carries: the job is tracked queued exactly when the remote API
    reports it queued. *)
Theorem dispatch_tracks_reported_status env (uid : Z) method data did ping s :
  result (dispatch env uid method data did ping s) = Ok tt ->
  exists user rdata job,
    result (get_user env uid s) = Ok user /\
    dispatch_endpoint env method (path_of did) (User.token user) data
    = ResponseJson rdata /\
    rd_id rdata = Some (Job.id job) /\
    rd_status rdata = Some (Job.status job) /\
    jobs (final (dispatch env uid method data did ping s))
    = dict_set (Job.id job) job (jobs s) /\
    (Job.status job = "queued" <-> rd_status rdata = Some "queued").
Proof.
  intros Hok.
  destruct (dispatch_jobs env uid method data did ping s)
    as [[Hne _]|(user & rdata & job_id & action & created_at & modified_at
                 & status & d & err & _ & Hu & Hq & Hid & Hst & Hjobs)];
    [done|].
  exists user, rdata,
    (Job.set_message (sent_message env)
       (Job.init user job_id action created_at modified_at status ping d err)).
  repeat split; try done.
  - cbn. by intros ->.
  - rewrite Hst. cbn. by intros [= ->].
Qed.

Lemma dispatch_tracks_reported_status_witness :
  exists user rdata job,
    result (get_user (env_submit "queued" 0) 10 ann_logged_in) = Ok user /\
    dispatch_endpoint (env_submit "queued" 0) "POST" (path_of None)
                      (User.token user) None = ResponseJson rdata /\
    rd_id rdata = Some (Job.id job) /\
    rd_status rdata = Some (Job.status job) /\
    jobs (final (dispatch (env_submit "queued" 0) 10 "POST" None None false
                          ann_logged_in))
    = dict_set (Job.id job) job (jobs ann_logged_in) /\
    (Job.status job = "queued" <-> rd_status rdata = Some "queued").
Proof.
  apply dispatch_tracks_reported_status. vm_compute. reflexivity.
Defined.

(** C8 as written fails: the remote API answers the submission with a job
    that has already succeeded, and the job is tracked as such. *)
Lemma tracked_in_queued_status_fails : ~ tracked_in_queued_status.
Proof.
  intros H.
  specialize (H (env_submit "success" 0) 10 "POST" None None false
                ann_logged_in
                (42, Job.mk 42 ann "add" 5 5 "success" None None false (Some 142))).
  assert (Hjobs : jobs (final (dispatch (env_submit "success" 0) 10 "POST"
                                        None None false ann_logged_in))
                  = [(42, Job.mk 42 ann "add" 5 5 "success" None None false
                                 (Some 142))])
    by (vm_compute; reflexivity).
  rewrite Hjobs in H. cbn in H.
  assert (Hq : "success" = "queued"); [|discriminate Hq].
  apply H.
  - vm_compute. reflexivity.
  - constructor.
  - apply not_elem_of_nil.
Qed.

Lemma get_user_cached_session_witness :
  get_user (env_submit "queued" twelve_hours) 10 ann_logged_in
  = Run (Ok ann) ann_logged_in [].
Proof.
  refine (proj1 (get_user_cached_session (env_submit "queued" twelve_hours)
                   ann_logged_in 10 ann _) _).
  - vm_compute. reflexivity.
  - vm_compute. discriminate.
Defined.

Lemma submission_rejects_wrong_content_type_witness :
  add_dispatch (env_submit "queued" 0) 10 "Title" "testlandia" 305 picture
               false ann_logged_in
  = Run (Raise (UserInputError "content must be a .txt file")) ann_logged_in [].
Proof.
  refine (proj1 (submission_rejects_wrong_content_type
                   (env_submit "queued" 0) 10 "Title" "testlandia" 305 0
                   picture false ann_logged_in _)).
  discriminate.
Defined.

(** ** [int(str(category.value)[:1])] *)

(** The first character [digits] writes is the leading decimal digit. *)
Lemma digits_head fuel : forall n acc k,
  0 <= k -> 10 ^ k <= n < 10 ^ (k + 1) -> (Z.to_nat k < fuel)%nat ->
  exists rest, digits fuel n acc = String (digit_char (n / 10 ^ k)) rest.
Proof.
  induction fuel as [|fuel IH]; intros n acc k Hk Hn Hfuel; [lia|].
  cbn [digits]. destruct (Z.ltb_spec n 10) as [Hlt|Hge].
  - assert (k = 0) as ->.
    { destruct (decide (k = 0)) as [|Hne]; [done|].
      assert (10 ^ 1 <= 10 ^ k) by (apply Z.pow_le_mono_r; lia). lia. }
    exists acc. rewrite Z.pow_0_r, Z.div_1_r, Z.mod_small; [done|lia].
  - assert (0 < k).
    { destruct (decide (k = 0)) as [->|]; [|lia]. cbn in Hn. lia. }
    destruct (IH (n / 10) (String (digit_char (n mod 10)) acc) (k - 1))
      as [rest Hrest]; [lia| |lia|].
    + replace (k - 1 + 1) with k by lia.
      assert (Hp : 10 ^ k = 10 * 10 ^ (k - 1))
        by (rewrite <- Z.pow_succ_r by lia; f_equal; lia).
      assert (Hp1 : 10 ^ (k + 1) = 10 * 10 ^ k)
        by (rewrite Z.pow_add_r; lia).
      split.
      * apply Z.div_le_lower_bound; lia.
      * apply Z.div_lt_upper_bound; lia.
    + exists rest. rewrite Hrest. do 2 f_equal.
      rewrite Z.div_div by lia.
      rewrite <- Z.pow_succ_r by lia. do 2 f_equal. lia.
Qed.

Lemma str_head n k :
  0 <= k -> 10 ^ k <= n < 10 ^ (k + 1) ->
  exists rest, str n = String (digit_char (n / 10 ^ k)) rest.
Proof.
  intros Hk Hn. unfold str.
  assert (0 < 10 ^ k) by (apply Z.pow_pos_nonneg; lia).
  destruct (Z.ltb_spec n 0); [lia|].
  apply digits_head; [done|done|].
  assert (k <= Z.log2 n).
  { apply Z.log2_le_pow2; [lia|].
    etrans; [|apply Hn]. apply Z.pow_le_mono_l. lia. }
  lia.
Qed.

Lemma int_digit {S} d rest (s : S) :
  0 <= d <= 9 ->
  int (slice_to_1 (String (digit_char d) rest)) s = Run (Ok d) s [].
Proof.
  intros Hd.
  assert (d = 0 \/ d = 1 \/ d = 2 \/ d = 3 \/ d = 4 \/ d = 5 \/ d = 6 \/
          d = 7 \/ d = 8 \/ d = 9) as Hcases by lia.
  repeat destruct Hcases as [->|Hcases]; try subst d; reflexivity.
Qed.

(** [int(str(n)[:1])] is the leading decimal digit of [n]. *)
Lemma int_str_leading_digit {S} n k (s : S) :
  0 <= k -> 10 ^ k <= n < 10 ^ (k + 1) ->
  int (slice_to_1 (str n)) s = Run (Ok (n / 10 ^ k)) s [].
Proof.
  intros Hk Hn. destruct (str_head n k Hk Hn) as [rest ->].
  apply int_digit.
  assert (0 < 10 ^ k) by (apply Z.pow_pos_nonneg; lia).
  split.
  - apply Z.div_pos; lia.
  - assert (n / 10 ^ k < 10); [|lia].
    apply Z.div_lt_upper_bound; [lia|].
    replace (10 ^ (k + 1)) with (10 ^ k * 10) in Hn
      by (rewrite Z.pow_add_r; lia). lia.
Qed.

Lemma trace_after {S A} tr (r : run S A) : trace (after tr r) = tr ++ trace r.
Proof. by destruct r. Qed.

(** ** What a submission sends *)

Section Emits.
Context {S : Type} (P : event -> Prop).

Lemma emits_ret {A} (a : A) : emits P (@ret S A a).
Proof. intros s. constructor. Qed.
Lemma emits_raise {A} e : emits P (@raise S A e).
Proof. intros s. constructor. Qed.
Lemma emits_suspend {A} : emits P (@suspend S A).
Proof. intros s. constructor. Qed.
Lemma emits_get : emits P (@get S).
Proof. intros s. constructor. Qed.
Lemma emits_modify f : emits P (@modify S f).
Proof. intros s. constructor. Qed.
Lemma emits_emit ev : P ev -> emits P (@emit S ev).
Proof. intros Hev s. by repeat constructor. Qed.
Lemma emits_getitem {A} key (field : option A) : emits P (@getitem S A key field).
Proof. destruct field; [apply emits_ret|apply emits_raise]. Qed.
Lemma emits_strptime w : emits P (@strptime S w).
Proof. destruct w; [apply emits_raise|apply emits_ret]. Qed.
Lemma emits_int str : emits P (@int S str).
Proof. unfold int. case_match; [apply emits_ret|apply emits_raise]. Qed.
End Emits.

Create HintDb emits.
#[global] Hint Resolve emits_ret emits_raise emits_suspend emits_get
  emits_modify emits_getitem emits_strptime emits_int : emits.

Ltac emits :=
  repeat first
    [ apply emits_bind; [|intros ?]
    | solve [auto with emits]
    | apply emits_emit; first [exact I | solve [eauto]]
    | match goal with
      | |- emits _ (match ?x with _ => _ end) => destruct x
      | |- emits _ (if ?x then _ else _) => destruct x
      end ].

Section EmitsRequests.
Context (c v : Z).
Local Abbreviation P := (request_carries c v).

Lemma emits_call_discord {S} env call : emits P (@call_discord S env call).
Proof. unfold call_discord. emits. Qed.
Hint Resolve emits_call_discord : emits.

Lemma emits_sign_in {S} env u : emits P (@sign_in S env u).
Proof. unfold sign_in. emits. Qed.
Lemma emits_add_user uid u : emits P (add_user uid u).
Proof. unfold add_user. emits. Qed.
Lemma emits_respond env call : emits P (respond env call).
Proof. unfold respond. emits. Qed.
Hint Resolve emits_sign_in emits_add_user emits_respond : emits.

Lemma emits_modal_wait env uid : emits P (modal_wait env uid).
Proof.
  unfold modal_wait.
  destruct (modal_submission env) as [[username password]|]; [|emits].
  assert (Hs : emits P (LoginModal_on_submit env uid username password))
    by (unfold LoginModal_on_submit; emits).
  assert (He : forall e, emits P (LoginModal_on_error env e))
    by (intros e; unfold LoginModal_on_error; emits).
  intros s. specialize (Hs s).
  destruct (LoginModal_on_submit env uid username password s)
    as [[[]|e|] s' tr]; cbn [result final trace] in *; try done.
  apply Forall_app. split; [done|apply He].
Qed.
Hint Resolve emits_modal_wait : emits.

Lemma emits_get_user env uid : emits P (get_user env uid).
Proof. unfold get_user. emits. Qed.
Hint Resolve emits_get_user : emits.

Lemma emits_read_text env content : emits P (read_text env content).
Proof. unfold read_text. emits. Qed.
Hint Resolve emits_read_text : emits.

Lemma emits_dispatch env uid method data did ping :
  p_category data = c -> p_subcategory data = v ->
  emits P (dispatch env uid method (Some data) did ping).
Proof.
  intros Hc Hv.
  assert (Hreq : forall bearer,
             P (EvRequest method (path_of did) bearer (Some data)))
    by (intros bearer; cbn; eauto).
  unfold dispatch, client_request. emits.
Qed.
End EmitsRequests.



(** The choices of [category] have three digits: their category is the
    hundreds digit. *)
Lemma category_choices_three_digits :
  Forall (fun v => 10 ^ 2 <= v < 10 ^ (2 + 1)) category_choices.
Proof. repeat constructor; discriminate. Qed.

(** The request of the sample add: category 3, subcategory 305. *)
Example add_dispatch_305 :
  trace (add_dispatch (env_submit "queued" 0) 10 "Title" "testlandia" 305
                      notes false ann_logged_in)
  = [ EvDiscord attachment_read;
      EvRequest "POST" None "t0"
                (Some (mkPayload "Title" (Some "testlandia") 3 305 "hello"));
      EvDiscord (send_message_embed
                   (Job.embed (Job.init ann 42 "add" 5 5 "queued" false
                                        None None)));
      EvDiscord original_response ].
Proof. vm_compute. reflexivity. Qed.

(** The same for an edit of the dispatch 9001 under [Meta: Gameplay]. *)
Example edit_dispatch_835 :
  trace (edit_dispatch (env_submit "queued" 0) 10 9001 "Title" 835 notes
                       true ann_logged_in)
  = [ EvDiscord attachment_read;
      EvRequest "PUT" (Some 9001) "t0"
                (Some (mkPayload "Title" None 8 835 "hello"));
      EvDiscord (send_message_embed
                   (Job.embed (Job.init ann 42 "add" 5 5 "queued" true
                                        None None)));
      EvDiscord original_response ].
Proof. vm_compute. reflexivity. Qed.

(** ** [self.jobs] is a dictionary

    The keys of [self.jobs] are distinct from [Eurocore.__init__] on:
    neither a sweep nor a submission breaks it. *)

Lemma keys_filter_subseteq (P : Z * Job.t -> Prop) `{!forall x, Decision (P x)}
    (d : list (Z * Job.t)) :
  keys (filter P d) ⊆ keys d.
Proof.
  intros k Hk. unfold keys in *.
  apply list_elem_of_fmap in Hk as (item & -> & Hin).
  apply list_elem_of_filter in Hin as [_ Hin].
  by apply list_elem_of_fmap_2.
Qed.

Lemma keys_filter_NoDup (P : Z * Job.t -> Prop) `{!forall x, Decision (P x)}
    (d : list (Z * Job.t)) :
  NoDup (keys d) -> NoDup (keys (filter P d)).
Proof.
  induction d as [|[k job] d IH]; [done|].
  unfold keys in *. rewrite fmap_cons, NoDup_cons. intros [Hk Hnd].
  rewrite filter_cons. destruct (decide (P (k, job))); [|by apply IH].
  rewrite fmap_cons. apply NoDup_cons. split; [|by apply IH].
  intros Hin. apply Hk. by apply (keys_filter_subseteq P d).
Qed.

Lemma elem_of_keys_dict_set (k k' : Z) (job : Job.t) (d : list (Z * Job.t)) :
  k' ∈ keys (dict_set k job d) <-> k' = k \/ k' ∈ keys d.
Proof.
  unfold keys. induction d as [|[k0 job0] d IH]; cbn.
  - rewrite list_elem_of_singleton. split; [by left|].
    intros [?|Hin]; [done|]. by apply elem_of_nil in Hin.
  - destruct (decide (k0 = k)) as [->|Hne]; cbn; rewrite !elem_of_cons.
    + tauto.
    + rewrite IH. tauto.
Qed.

Lemma dict_set_NoDup (k : Z) (job : Job.t) (d : list (Z * Job.t)) :
  NoDup (keys d) -> NoDup (keys (dict_set k job d)).
Proof.
  induction d as [|[k0 job0] d IH]; cbn.
  { intros _. apply NoDup_singleton. }
  unfold keys in *. cbn. rewrite NoDup_cons. intros [Hk0 Hnd].
  destruct (decide (k0 = k)) as [->|Hne]; cbn; apply NoDup_cons.
  - done.
  - split; [|by apply IH].
    intros Hin. apply (elem_of_keys_dict_set k k0 job d) in Hin.
    by destruct Hin.
Qed.

Lemma init_cog_NoDup users : NoDup (keys (jobs (init_cog users))).
Proof. apply NoDup_nil_2. Qed.

Lemma poll_jobs_NoDup env s :
  NoDup (keys (jobs s)) -> NoDup (keys (jobs (final (poll_jobs env s)))).
Proof.
  intros Hnd. rewrite poll_jobs_unfold. cbn zeta.
  pose proof (for_items_keys (poll_job env) (jobs s)) as Hkeys.
  destruct (result (for_items (poll_job env) (jobs s))) as [[]|e|];
    cbn [final jobs with_jobs];
    [apply keys_filter_NoDup| |]; by rewrite Hkeys.
Qed.

Lemma dispatch_NoDup env (uid : Z) method data did ping s :
  NoDup (keys (jobs s)) ->
  NoDup (keys (jobs (final (dispatch env uid method data did ping s)))).
Proof.
  intros Hnd.
  destruct (dispatch_jobs env uid method data did ping s)
    as [[_ ->]|(user & rdata & job_id & action & created_at & modified_at
                & status & d & err & _ & _ & _ & _ & _ & ->)];
    [done|by apply dict_set_NoDup].
Qed.

(** ** The scenarios of the specification *)

(** The job 7 asked for a ping and has failed remotely: one render with
    the error text, one ping, and the job is no longer tracked. *)
Example sweep_failure_with_ping :
  let r := poll_jobs env_3_fails (mkEurocore [(7, job_7)] ∅ false) in
  result r = Ok tt /\
  jobs (final r) = [] /\
  trace r
  = [ EvLog PollingJobs; EvGet 7;
      EvDiscord
        (message_edit 107
           (Job.embed (Job.mk 7 ann "edit" 6 9 "failure" (Some 9001)
                              (Some "invalid title") true (Some 107))));
      EvDiscord (message_reply 107 10) ].
Proof. vm_compute. done. Qed.

(** The job 3 did not ask for a ping and has succeeded remotely: one
    render, no ping, and the job is no longer tracked. *)
Example sweep_success_without_ping :
  let r := poll_jobs (env_all "success" 9) (mkEurocore [(3, job_3)] ∅ false) in
  result r = Ok tt /\
  jobs (final r) = [] /\
  trace r
  = [ EvLog PollingJobs; EvGet 3;
      EvDiscord
        (message_edit 103
           (Job.embed (Job.mk 3 ann "add" 5 9 "success" (Some 9001) None
                              false (Some 103)))) ].
Proof. vm_compute. done. Qed.

(** The request for the job 3 fails: the job stays queued and tracked and
    is not rendered; the job 7 after it is not even requested. *)
Example sweep_remote_error :
  let r := poll_jobs env_3_fails two_jobs in
  result r = Raise ClientError /\
  jobs (final r) = [(3, job_3); (7, job_7)] /\
  trace r = [EvLog PollingJobs; EvGet 3].
Proof. vm_compute. done. Qed.

(** With the job 7 first, it is updated, rendered and pinged, and then
    the failing request for the job 3 keeps it tracked: the next sweep
    pings again. *)
Example sweep_remote_error_after_ping :
  let s := mkEurocore [(7, job_7); (3, job_3)] ∅ false in
  let r := poll_jobs env_3_fails s in
  let r' := poll_jobs env_3_fails (final r) in
  result r = Raise ClientError /\
  keys (jobs (final r)) = [7; 3] /\
  trace r
  = [ EvLog PollingJobs; EvGet 7;
      EvDiscord
        (message_edit 107
           (Job.embed (Job.mk 7 ann "edit" 6 9 "failure" (Some 9001)
                              (Some "invalid title") true (Some 107))));
      EvDiscord (message_reply 107 10);
      EvGet 3 ] /\
  trace r' = trace r.
Proof. vm_compute. done. Qed.

(** * Further properties *)

(** ** [Job.embed] *)

(** The embed links to the dispatch exactly when the job has a dispatch id
    other than 0 and its action is not [remove]. *)
Theorem embed_links_dispatch (j : Job.t) (d : Z) :
  ("View Dispatch", FDispatchLink d, false) ∈ embed_fields (Job.embed j) <->
  Job.dispatch_id j = Some d /\ d <> 0 /\ Job.action j <> "remove".
Proof.
  unfold Job.embed, Job.dispatch_id_truthy. cbn [embed_fields].
  destruct (Job.dispatch_id j) as [d'|];
    [destruct (Z.eqb_spec d' 0) as [->|Hd'];
     [|destruct (String.eqb_spec (Job.action j) "remove") as [Ha|Ha]]|];
    cbn [app]; rewrite !elem_of_cons, elem_of_nil;
    intuition (simplify_eq; auto).
Qed.

(** ** [Job.update] is not atomic *)

(** The status is assigned as soon as it is read: when the answer carries
    a status, the job has it after [Job.update], also when a later field
    is missing or malformed and the update raises; when the request fails
    or the answer carries no status, the job is as it was. *)
Theorem update_writes_status_first env job :
  match queue_dispatch env (Job.id job) with
  | ResponseJson data =>
      match rd_status data with
      | Some st => Job.status (final (update env job)) = st
      | None => update env job
                = Run (Raise (KeyError "status")) job [EvGet (Job.id job)]
      end
  | ResponseError e => update env job = Run (Raise e) job [EvGet (Job.id job)]
  end.
Proof.
  rewrite update_unfold. cbn zeta.
  destruct (queue_dispatch env (Job.id job)) as [e|data]; [done|].
  destruct (rd_status data) as [st|]; [|done].
  repeat (case_match; try done).
Qed.

(** A job that has a descriptor but no message is overwritten and then
    [Job.update] raises [AttributeError]: nothing is rendered. *)
Theorem update_without_message env job data st t d e :
  queue_dispatch env (Job.id job) = ResponseJson data ->
  descriptor data = Some (st, t, d, e) ->
  Job.message job = None ->
  update env job
  = Run (Raise AttributeError) (updated st t d e job) [EvGet (Job.id job)].
Proof.
  intros Hq Hdesc Hm. rewrite update_unfold; cbn zeta. rewrite Hq.
  unfold descriptor in Hdesc.
  destruct (rd_status data) as [st'|]; [|done].
  destruct (rd_modified_at data) as [[|t']|]; [done| |done].
  destruct (rd_dispatch_id data) as [d'|]; [|done].
  destruct (rd_error data) as [e'|]; [|done].
  simplify_eq. by rewrite Hm, set_all_updated.
Qed.

(** ** What a sweep asks and what it leaves *)

(** The body of the loop asks about its job once, however it ends. *)
Lemma poll_job_requested env k job :
  requested (trace (poll_job env k job)) = [Job.id job].
Proof.
  rewrite poll_job_unfold, update_unfold. cbn zeta.
  repeat (case_match; simplify_eq; try done).
Qed.

Lemma requested_app tr tr' : requested (tr ++ tr') = requested tr ++ requested tr'.
Proof. apply omap_app. Qed.

Lemma for_items_requested env items :
  requested (trace (for_items (poll_job env) items))
  `prefix_of` (fun item => Job.id item.2) <$> items /\
  (result (for_items (poll_job env) items) = Ok tt ->
   requested (trace (for_items (poll_job env) items))
   = (fun item => Job.id item.2) <$> items).
Proof.
  induction items as [|[k job] items [IHp IHe]]; [done|].
  cbn [for_items]. pose proof (poll_job_requested env k job) as Hreq.
  destruct (result (poll_job env k job)) as [[]|e|] eqn:Hres;
    cbn [result trace].
  - rewrite requested_app, Hreq. cbn [app fmap list_fmap snd]. split.
    + by apply (prefix_cons (Job.id job)).
    + intros Hok. by rewrite IHe.
  - rewrite Hreq. split; [|done]. by exists ((fun item => Job.id item.2) <$> items).
  - rewrite Hreq. split; [|done]. by exists ((fun item => Job.id item.2) <$> items).
Qed.

(** A sweep asks the remote API about tracked jobs only, in the order of
    the dictionary, each at most once: about all of them when it
    completes, about those up to the failing one otherwise. *)
Theorem poll_jobs_requests env s :
  requested (trace (poll_jobs env s))
  `prefix_of` (fun item => Job.id item.2) <$> jobs s /\
  (result (poll_jobs env s) = Ok tt ->
   requested (trace (poll_jobs env s)) = (fun item => Job.id item.2) <$> jobs s).
Proof.
  rewrite poll_jobs_trace. cbn [requested omap].
  destruct (for_items_requested env (jobs s)) as [Hp He].
  split; [done|]. intros Hok. apply He.
  rewrite poll_jobs_unfold in Hok. cbn zeta in Hok.
  by destruct (result (for_items (poll_job env) (jobs s))) as [[]|e|].
Qed.

(** A sweep tracks no new job and keeps the order of those it keeps; it
    does not touch the sessions; and a sweep that does not complete
    removes nothing. *)
Theorem poll_jobs_frame env s :
  keys (jobs (final (poll_jobs env s))) `sublist_of` keys (jobs s) /\
  user_list (final (poll_jobs env s)) = user_list s /\
  (result (poll_jobs env s) <> Ok tt ->
   keys (jobs (final (poll_jobs env s))) = keys (jobs s)).
Proof.
  rewrite poll_jobs_unfold. cbn zeta.
  pose proof (for_items_keys (poll_job env) (jobs s)) as Hkeys.
  destruct (result (for_items (poll_job env) (jobs s))) as [[]|e|];
    cbn [final result jobs user_list with_jobs].
  - split; [|done]. rewrite <- Hkeys. unfold keys.
    apply fmap_sublist, sublist_filter.
  - by rewrite Hkeys.
  - by rewrite Hkeys.
Qed.

(** ** Tracked jobs have an id for key and a message *)

Lemma well_tracked_update env k job :
  well_tracked (k, job) -> well_tracked (k, final (update env job)).
Proof.
  unfold well_tracked; cbn.
  pose proof (update_frame env job) as (Hid & _ & _ & _ & _ & Hm).
  intros [-> Hmsg]. by rewrite Hid, Hm.
Qed.

(** Wherever the loop stops, an item is as it was or as [Job.update]
    left it. *)
Lemma for_items_Forall (P : Z * Job.t -> Prop) env items :
  (forall k job, P (k, job) -> P (k, final (update env job))) ->
  Forall P items -> Forall P (final (for_items (poll_job env) items)).
Proof.
  intros Hstep. induction 1 as [|[k job] items Hitem Hall IH]; [done|].
  cbn [for_items].
  assert (P (k, final (poll_job env k job)))
    by (rewrite poll_job_final; by apply Hstep).
  destruct (result (poll_job env k job)) as [[]|e|]; cbn; by constructor.
Qed.

Lemma dict_set_Forall (P : Z * Job.t -> Prop) k job d :
  P (k, job) -> Forall P d -> Forall P (dict_set k job d).
Proof.
  intros Hnew. induction 1 as [|[k0 job0] d Hitem Hall IH]; cbn.
  - by repeat constructor.
  - destruct (decide (k0 = k)); by constructor.
Qed.

(** Every tracked job is keyed by its own id and has a message, from
    [Eurocore.__init__] on: a sweep keeps it so, however it ends, and so
    does a submission. *)
Theorem tracked_jobs_stay_well_tracked env env' (uid : Z) method data did ping s :
  Forall well_tracked (jobs s) ->
  Forall well_tracked (jobs (final (poll_jobs env s))) /\
  Forall well_tracked
         (jobs (final (dispatch env' uid method data did ping s))).
Proof.
  intros Hwell. split.
  - rewrite poll_jobs_unfold. cbn zeta.
    pose proof (for_items_Forall well_tracked env (jobs s)
                  (well_tracked_update env) Hwell) as Hfin.
    destruct (result (for_items (poll_job env) (jobs s))) as [[]|e|];
      cbn [final jobs with_jobs]; [|done|done].
    apply Forall_forall. intros item Hin.
    apply list_elem_of_filter in Hin as [_ Hin].
    by apply (proj1 (Forall_forall _ _) Hfin).
  - destruct (dispatch_jobs env' uid method data did ping s)
      as [[_ ->]|(user & rdata & job_id & action & created_at & modified_at
                  & status & d & err & _ & _ & _ & _ & _ & ->)]; [done|].
    apply dict_set_Forall; [|done]. split; cbn; [done|by eexists].
Qed.

(** ** A sweep can complete *)


(** ** What a submission tracks *)

Lemma keys_dict_set (k : Z) (job : Job.t) (d : list (Z * Job.t)) :
  keys (dict_set k job d)
  = if decide (k ∈ keys d) then keys d else keys d ++ [k].
Proof.
  unfold keys. induction d as [|[k0 job0] d IH]; cbn.
  { destruct (decide (k ∈ [])) as [Hin|]; [by apply elem_of_nil in Hin|done]. }
  destruct (decide (k0 = k)) as [->|Hne]; cbn.
  - destruct (decide (k ∈ k :: d.*1)) as [|Hn]; [done|].
    destruct Hn. by left.
  - rewrite IH.
    destruct (decide (k ∈ d.*1)) as [Hin|Hn];
      destruct (decide (k ∈ k0 :: d.*1)) as [Hin'|Hn']; try done.
    + destruct Hn'. by right.
    + apply elem_of_cons in Hin' as [->|]; done.
Qed.

Lemma elem_of_dict_set_same (k : Z) (job : Job.t) (d : list (Z * Job.t)) :
  (k, job) ∈ dict_set k job d.
Proof.
  induction d as [|[k0 job0] d IH]; cbn; [by left|].
  destruct (decide (k0 = k)); [by left|by right].
Qed.

Lemma elem_of_dict_set_other (k k' : Z) (job job' : Job.t) (d : list (Z * Job.t)) :
  k' <> k -> (k', job') ∈ dict_set k job d <-> (k', job') ∈ d.
Proof.
  intros Hne. induction d as [|[k0 job0] d IH]; cbn.
  - rewrite list_elem_of_singleton, elem_of_nil. split; [by intros [= ? ?]|done].
  - destruct (decide (k0 = k)) as [->|Hk0]; rewrite !elem_of_cons.
    + split; (intros [[= ? ?]|?]; [done|by right]).
    + by rewrite IH.
Qed.

(** A submission that does not complete tracks nothing: also when the
    remote API has accepted it and only the reply to Discord failed. *)
Theorem dispatch_failure_tracks_nothing env (uid : Z) method data did ping s :
  result (dispatch env uid method data did ping s) <> Ok tt ->
  jobs (final (dispatch env uid method data did ping s)) = jobs s.
Proof.
  intros Hfail.
  destruct (dispatch_jobs env uid method data did ping s)
    as [[_ Hjobs]|(user & rdata & job_id & action & created_at & modified_at
                   & status & d & err & Hok & _)]; done.
Qed.

(** A submission that completes sets one entry of [self.jobs], under the
    id of the new job: an id that is already tracked keeps its place and
    gets the new job, a new id goes last; the other entries are as they
    were.  The new job has the ping flag of the command and the message
    that was sent. *)
Theorem dispatch_sets_one_key env (uid : Z) method data did ping s :
  result (dispatch env uid method data did ping s) = Ok tt ->
  exists job,
    Job.ping_on_completion job = ping /\
    Job.message job = Some (sent_message env) /\
    (Job.id job, job) ∈ jobs (final (dispatch env uid method data did ping s)) /\
    keys (jobs (final (dispatch env uid method data did ping s)))
    = (if decide (Job.id job ∈ keys (jobs s)) then keys (jobs s)
       else keys (jobs s) ++ [Job.id job]) /\
    forall (k : Z) (job' : Job.t),
      k <> Job.id job ->
      (k, job') ∈ jobs (final (dispatch env uid method data did ping s))
      <-> (k, job') ∈ jobs s.
Proof.
  intros Hok.
  destruct (dispatch_jobs env uid method data did ping s)
    as [[Hne _]|(user & rdata & job_id & action & created_at & modified_at
                 & status & d & err & _ & _ & _ & _ & _ & ->)]; [done|].
  eexists. split; [|split; [|split; [|split]]].
  3: apply elem_of_dict_set_same.
  3: apply keys_dict_set.
  1, 2: done.
  intros k job' Hk. by apply elem_of_dict_set_other.
Qed.

(** The keys of [self.jobs] stay distinct through a sweep, however it
    ends, and through a submission. *)
Theorem jobs_keys_stay_distinct env env' (uid : Z) method data did ping s :
  NoDup (keys (jobs s)) ->
  NoDup (keys (jobs (final (poll_jobs env s)))) /\
  NoDup (keys (jobs (final (dispatch env' uid method data did ping s)))).
Proof.
  intros Hnd. split; [by apply poll_jobs_NoDup|by apply dispatch_NoDup].
Qed.

(** ** How a submission answers the interaction *)

Lemma stays_responded_bind {A B} (m : M Eurocore A) (k : A -> M Eurocore B) :
  stays_responded m -> (forall a, stays_responded (k a)) ->
  stays_responded (bind m k).
Proof.
  intros Hm Hk s Hs. unfold bind. specialize (Hm s Hs).
  destruct (m s) as [[a|e|] s' tr]; cbn in *; try done.
  specialize (Hk a s' Hm). by destruct (k a s').
Qed.

Lemma stays_responded_call_discord env c : stays_responded (call_discord env c).
Proof. intros s Hs. unfold call_discord, bind; cbn. by destruct (discord env c). Qed.

Lemma stays_responded_sign_in env u : stays_responded (sign_in env u).
Proof.
  intros s Hs. unfold sign_in, bind; cbn. by destruct (authenticate env _ _).
Qed.

Lemma stays_responded_on_submit env uid username password :
  stays_responded (LoginModal_on_submit env uid username password).
Proof.
  unfold LoginModal_on_submit.
  apply stays_responded_bind; [apply stays_responded_sign_in|intros u].
  apply stays_responded_bind; [by intros s Hs|intros _].
  apply stays_responded_bind; [by intros s Hs|intros _].
  apply stays_responded_call_discord.
Qed.

Lemma stays_responded_modal_wait env uid : stays_responded (modal_wait env uid).
Proof.
  unfold modal_wait.
  destruct (modal_submission env) as [[username password]|];
    [|by intros s Hs].
  intros s Hs.
  pose proof (stays_responded_on_submit env uid username password s Hs) as H.
  destruct (LoginModal_on_submit env uid username password s) as [[[]|e|] s' tr];
    cbn [result final] in *; try done.
  unfold LoginModal_on_error.
  apply (stays_responded_bind (emit _) (fun _ => call_discord env _));
    [by intros s0 Hs0|intros _; apply stays_responded_call_discord|done].
Qed.

(** A response that goes through marks the interaction as responded. *)
Lemma respond_ok env c s :
  result (respond env c s) = Ok tt ->
  response_is_done (final (respond env c s)) = true.
Proof.
  cbv [respond bind get call_discord emit after modify ret raise].
  destruct (response_is_done s); cbn; [done|].
  by destruct (discord env c).
Qed.

(** [get_user] responds to the interaction, with the login modal,
    exactly when no session is cached. *)
Lemma get_user_responds env uid s user :
  result (get_user env uid s) = Ok user ->
  response_is_done (final (get_user env uid s))
  = match user_list s !! uid with
    | Some _ => response_is_done s
    | None => true
    end.
Proof.
  destruct (user_list s !! uid) as [u|] eqn:Hu.
  { rewrite (get_user_cached env s uid u Hu). repeat case_match; by cbn. }
  unfold get_user.
  set (tail := bind get (fun s => match user_list s !! uid with
                                  | None => _ | Some u => _ end)).
  assert (Htail : stays_responded tail).
  { subst tail. apply stays_responded_bind; [by intros s0 Hs0|intros s0].
    destruct (user_list s0 !! uid); [|by intros s1 Hs1].
    destruct (decide _); [|by intros s1 Hs1].
    apply stays_responded_bind; [apply stays_responded_sign_in|intros u].
    apply stays_responded_bind; [by intros s1 Hs1|intros _; by intros s1 Hs1]. }
  intros Hok.
  apply bind_ok_inv in Hok as (s0 & Hs0 & Hok & -> & _).
  cbn [get result final] in *. simplify_eq. rewrite Hu in *.
  apply bind_ok_inv in Hok as ([] & Hshown & _ & -> & _).
  apply Htail.
  apply bind_ok_inv in Hshown as ([] & Hresp & _ & -> & _).
  apply stays_responded_modal_wait. by apply respond_ok.
Qed.


(** ** Where a submission goes *)

Section EmitsNoRequest.
Context (P : event -> Prop) (HP : forall ev, not_request ev -> P ev).

Local Ltac quiet :=
  repeat first
    [ apply emits_bind; [|intros ?]
    | solve [auto with emits]
    | apply emits_emit; apply HP; exact I
    | match goal with
      | |- emits _ (match ?x with _ => _ end) => destruct x
      | |- emits _ (if ?x then _ else _) => destruct x
      end ].

Lemma quiet_call_discord {S} env call : emits P (@call_discord S env call).
Proof. unfold call_discord. quiet. Qed.
Hint Resolve quiet_call_discord : emits.

Lemma quiet_sign_in {S} env u : emits P (@sign_in S env u).
Proof. unfold sign_in. quiet. Qed.
Lemma quiet_add_user uid u : emits P (add_user uid u).
Proof. unfold add_user. quiet. Qed.
Lemma quiet_respond env call : emits P (respond env call).
Proof. unfold respond. quiet. Qed.
Hint Resolve quiet_sign_in quiet_add_user quiet_respond : emits.

Lemma quiet_modal_wait env uid : emits P (modal_wait env uid).
Proof.
  unfold modal_wait.
  destruct (modal_submission env) as [[username password]|]; [|quiet].
  assert (Hs : emits P (LoginModal_on_submit env uid username password))
    by (unfold LoginModal_on_submit; quiet).
  assert (He : forall e, emits P (LoginModal_on_error env e))
    by (intros e; unfold LoginModal_on_error; quiet).
  intros s. specialize (Hs s).
  destruct (LoginModal_on_submit env uid username password s)
    as [[[]|e|] s' tr]; cbn [result final trace] in *; try done.
  apply Forall_app. split; [done|apply He].
Qed.
Hint Resolve quiet_modal_wait : emits.

(** [get_user] sends nothing to the dispatch endpoint. *)
Lemma quiet_get_user env uid : emits P (get_user env uid).
Proof. unfold get_user. quiet. Qed.

Lemma quiet_read_text env content : emits P (read_text env content).
Proof. unfold read_text. quiet. Qed.
Hint Resolve quiet_get_user quiet_read_text : emits.

(** The one request of [dispatch]. *)
Lemma emits_dispatch_request env uid method data did ping :
  (forall bearer, P (EvRequest method (path_of did) bearer data)) ->
  emits P (dispatch env uid method data did ping).
Proof.
  intros Hreq. unfold dispatch, client_request.
  repeat first
    [ apply emits_bind; [|intros ?]
    | solve [auto with emits]
    | apply emits_emit; first [apply Hreq | apply HP; exact I]
    | match goal with
      | |- emits _ (match ?x with _ => _ end) => destruct x
      | |- emits _ (if ?x then _ else _) => destruct x
      end ].
Qed.

End EmitsNoRequest.

(** The requests of the three commands: an add is a [POST] to
    [/dispatch] with a body; an edit is a [PUT] and a delete a [DELETE],
    the delete without a body, to [/dispatch/{id}] for an id other than
    0, and to [/dispatch] for the id 0. *)
Theorem submissions_are_addressed env (uid : Z) title nation category
    (dispatch_id : Z) content ping s :
  let path := if decide (dispatch_id = 0) then None else Some dispatch_id in
  Forall (addressed "POST" None true)
         (trace (add_dispatch env uid title nation category content ping s)) /\
  Forall (addressed "PUT" path true)
         (trace (edit_dispatch env uid dispatch_id title category content ping s)) /\
  Forall (addressed "DELETE" path false)
         (trace (delete_dispatch env uid dispatch_id ping s)).
Proof.
  intros path.
  assert (Hpath : path_of (Some dispatch_id) = path).
  { subst path. unfold path_of.
    destruct (Z.eqb_spec dispatch_id 0); by destruct (decide _). }
  assert (Hquiet : forall method p body ev,
             not_request ev -> addressed method p body ev)
    by (by intros method p body []).
  split; [|split]; revert s.
  - change (emits (addressed "POST" None true)
              (add_dispatch env uid title nation category content ping)).
    unfold add_dispatch.
    destruct (decide (content_type content = _)); [|apply emits_raise].
    apply emits_bind; [apply quiet_read_text, Hquiet|intros text].
    apply emits_bind; [apply emits_int|intros c].
    apply emits_dispatch_request; [apply Hquiet|].
    intros bearer. cbn. by eauto.
  - change (emits (addressed "PUT" path true)
              (edit_dispatch env uid dispatch_id title category content ping)).
    unfold edit_dispatch.
    destruct (decide (content_type content = _)); [|apply emits_raise].
    apply emits_bind; [apply quiet_read_text, Hquiet|intros text].
    apply emits_bind; [apply emits_int|intros c].
    apply emits_dispatch_request; [apply Hquiet|].
    intros bearer. unfold addressed. rewrite Hpath. by eauto.
  - change (emits (addressed "DELETE" path false)
              (delete_dispatch env uid dispatch_id ping)).
    unfold delete_dispatch.
    apply emits_dispatch_request; [apply Hquiet|].
    intros bearer. unfold addressed. by rewrite Hpath.
Qed.

(** An attachment of the right content type that cannot be read, or is
    not UTF-8, stops an add or an edit after the read: the state is as
    before and nothing else has been sent, neither login modal nor
    request. *)
Theorem submission_unreadable_attachment env (uid : Z) title nation category
    dispatch_id content ping s :
  content_type content = Some "text/plain; charset=utf-8" ->
  decoded content = None ->
  let stopped :=
    Run (Raise (default UnicodeDecodeError (discord env attachment_read)))
        s [EvDiscord attachment_read] in
  add_dispatch env uid title nation category content ping s = stopped /\
  edit_dispatch env uid dispatch_id title category content ping s = stopped.
Proof.
  intros Htype Hdec stopped. subst stopped.
  unfold add_dispatch, edit_dispatch.
  destruct (decide _); [|done].
  cbv [bind read_text call_discord emit after raise ret]. rewrite Hdec.
  by destruct (discord env attachment_read).
Qed.

(** ** [LoginModal.on_submit] *)

(** The session is stored only once it is signed in: when [sign_in]
    raises, [on_submit] raises the same, the sessions are as before and
    nothing is logged or replied; when [on_submit] returns, the session
    [sign_in] returned is the one cached for the identity, in place of
    any earlier one. *)
Theorem login_modal_stores_signed_in_session env (uid : Z) username password s :
  let user := User.new uid username password in
  let r := LoginModal_on_submit env uid username password s in
  (forall e, result (sign_in env user s) = Raise e ->
             r = Run (Raise e) s (trace (sign_in env user s))) /\
  (result r = Ok tt ->
   exists user', result (sign_in env user s) = Ok user' /\
                 user_list (final r) = <[uid := user']> (user_list s) /\
                 jobs (final r) = jobs s).
Proof.
  intros user r. subst r user.
  cbv [LoginModal_on_submit sign_in add_user bind emit after modify ret raise
       call_discord].
  destruct (authenticate env _ _) as [tok|]; cbn.
  - split; [done|].
    destruct (discord env _); cbn; [done|]. intros _. by eexists.
  - split; [by intros e [= <-]|done].
Qed.

(** ** From a submission to the next sweep *)


(** ** The properties at the sample worlds *)

Lemma update_without_message_witness :
  update (env_all "success" 9) job_7_unsent
  = Run (Raise AttributeError)
        (updated "success" 9 (Some 9001) None job_7_unsent) [EvGet 7].
Proof.
  by apply (update_without_message (env_all "success" 9) job_7_unsent
              (reports "success" 9 None)).
Defined.

Lemma tracked_jobs_stay_well_tracked_witness :
  Forall well_tracked (jobs (final (poll_jobs env_3_fails two_jobs))).
Proof.
  refine (proj1 (tracked_jobs_stay_well_tracked env_3_fails env_3_fails 10
                   "POST" None None false two_jobs _)).
  repeat constructor; by eexists.
Defined.


Lemma dispatch_failure_tracks_nothing_witness :
  jobs (final (dispatch env_discord_down 10 "POST" None None false
                        ann_logged_in))
  = jobs ann_logged_in.
Proof.
  apply dispatch_failure_tracks_nothing. vm_compute. discriminate.
Defined.

Lemma dispatch_sets_one_key_witness :
  exists job,
    Job.ping_on_completion job = true /\
    Job.message job = Some (sent_message (env_submit "queued" 0)) /\
    (Job.id job, job)
    ∈ jobs (final (dispatch (env_submit "queued" 0) 10 "DELETE" None
                            (Some 9001) true ann_logged_in)) /\
    keys (jobs (final (dispatch (env_submit "queued" 0) 10 "DELETE" None
                                (Some 9001) true ann_logged_in)))
    = (if decide (Job.id job ∈ keys (jobs ann_logged_in))
       then keys (jobs ann_logged_in)
       else keys (jobs ann_logged_in) ++ [Job.id job]) /\
    forall (k : Z) (job' : Job.t),
      k <> Job.id job ->
      (k, job')
      ∈ jobs (final (dispatch (env_submit "queued" 0) 10 "DELETE" None
                              (Some 9001) true ann_logged_in))
      <-> (k, job') ∈ jobs ann_logged_in.
Proof.
  apply dispatch_sets_one_key. vm_compute. reflexivity.
Defined.

Lemma jobs_keys_stay_distinct_witness :
  NoDup (keys (jobs (final (poll_jobs env_3_fails two_jobs)))).
Proof.
  refine (proj1 (jobs_keys_stay_distinct env_3_fails env_3_fails 10 "POST"
                   None None false two_jobs _)).
  apply (bool_decide_unpack _). vm_compute. exact I.
Defined.


Lemma submission_unreadable_attachment_witness :
  add_dispatch (env_submit "queued" 0) 10 "Title" "testlandia" 305
               (mkAttachment (Some "text/plain; charset=utf-8") None) false
               ann_logged_in
  = Run (Raise UnicodeDecodeError) ann_logged_in [EvDiscord attachment_read].
Proof.
  refine (proj1 (submission_unreadable_attachment
                   (env_submit "queued" 0) 10 "Title" "testlandia" 305 0
                   (mkAttachment (Some "text/plain; charset=utf-8") None)
                   false ann_logged_in _ _)); reflexivity.
Defined.

Lemma get_user_twice_witness :
  get_user (env_submit "queued" 0) 10
           (final (get_user (env_submit "queued" 0) 10 ann_logged_in))
  = Run (Ok ann) (final (get_user (env_submit "queued" 0) 10 ann_logged_in)) [].
Proof.
  apply get_user_twice.
  - vm_compute. reflexivity.
  - vm_compute. discriminate.
Defined.

